(** * sphinx_gherkin.markup.autodoc: directives and Documenters

    A shallow embedding of [src/sphinx_gherkin/markup/autodoc.py]: the
    autodoc directives ([AutoKeywordDescription] and its subclasses), the
    [Documenter] class hierarchy and [format_datatable], with the
    properties of the generated reST lines.

    Python objects that are mutated in place (the bridge's [result] and
    [record_dependencies], [env.ref_context], the logger) are fields of one
    store [St], threaded through a state-and-exception monad [M]: a raised
    exception keeps the store as it was when it was raised. *)

From Stdlib Require Import String Ascii List Arith Lia Bool.
From stdpp Require Import gmap strings list.
Import ListNotations.

Set Warnings "-register-all".

Local Open Scope string_scope.
Local Open Scope list_scope.

(** ** Python [str] operations

    Text is modelled on [string], read as ASCII: a character above 127 is
    neither whitespace nor cased. *)

Module Py.

Definition code (c : ascii) : nat := nat_of_ascii c.

(** [str.isspace] on one character: TAB, LF, VT, FF, CR, FS, GS, RS, US, SPACE. *)
Definition isspace (c : ascii) : bool :=
  let n := code c in
  ((9 <=? n)%nat && (n <=? 13)%nat) || ((28 <=? n)%nat && (n <=? 32)%nat).

Definition isupper (c : ascii) : bool :=
  let n := code c in (65 <=? n)%nat && (n <=? 90)%nat.

Definition islower (c : ascii) : bool :=
  let n := code c in (97 <=? n)%nat && (n <=? 122)%nat.

Definition lower_char (c : ascii) : ascii :=
  if isupper c then ascii_of_nat (code c + 32) else c.

Definition upper_char (c : ascii) : ascii :=
  if islower c then ascii_of_nat (code c - 32) else c.

(** [s.lower()] *)
Fixpoint lower (s : string) : string :=
  match s with
  | EmptyString => EmptyString
  | String c r => String (lower_char c) (lower r)
  end.

(** [s.title()]: a cased character is upper-cased when the character before
    it is not cased, lower-cased otherwise. *)
Fixpoint title_from (prev_cased : bool) (s : string) : string :=
  match s with
  | EmptyString => EmptyString
  | String c r =>
      if isupper c || islower c
      then String (if prev_cased then lower_char c else upper_char c)
                  (title_from true r)
      else String c (title_from false r)
  end.

Definition title (s : string) : string := title_from false s.

(** [s.lstrip(chars)] and [s.rstrip(chars)], the character set given as a
    predicate. *)
Fixpoint lstrip_by (p : ascii -> bool) (s : string) : string :=
  match s with
  | EmptyString => EmptyString
  | String c r => if p c then lstrip_by p r else s
  end.

Fixpoint rstrip_by (p : ascii -> bool) (s : string) : string :=
  match s with
  | EmptyString => EmptyString
  | String c r =>
      match rstrip_by p r with
      | EmptyString => if p c then EmptyString else String c EmptyString
      | r' => String c r'
      end
  end.

Definition strip_by (p : ascii -> bool) (s : string) : string :=
  lstrip_by p (rstrip_by p s).

(** [s.lstrip()], [s.strip()] and [s.strip(":")] *)
Definition lstrip : string -> string := lstrip_by isspace.
Definition strip : string -> string := strip_by isspace.
Definition is_colon (c : ascii) : bool := Ascii.eqb c ":".
Definition strip_colon : string -> string := strip_by is_colon.

(** Truth value of a [str]: the empty string is false. *)
Definition truthy (s : string) : bool :=
  match s with EmptyString => false | String _ _ => true end.

(** [s[n:]] *)
Fixpoint drop (n : nat) (s : string) : string :=
  match n, s with
  | O, _ => s
  | S n', String _ r => drop n' r
  | S _, EmptyString => EmptyString
  end.

(** [c in s] for a one-character [c] *)
Fixpoint contains (c : ascii) (s : string) : bool :=
  match s with
  | EmptyString => false
  | String d r => Ascii.eqb c d || contains c r
  end.

(** The second component of [s.split(c, 1)] when [c] occurs in [s]. *)
Fixpoint after_first (c : ascii) (s : string) : string :=
  match s with
  | EmptyString => EmptyString
  | String d r => if Ascii.eqb c d then r else after_first c r
  end.

(** Line boundaries of [str.splitlines]: LF, VT, FF, CR, FS, GS, RS; CR LF
    counts as one boundary. *)
Definition is_linebreak (c : ascii) : bool :=
  let n := code c in
  ((10 <=? n)%nat && (n <=? 13)%nat) || ((28 <=? n)%nat && (n <=? 30)%nat).

Definition is_cr (c : ascii) : bool := (code c =? 13)%nat.
Definition is_lf (c : ascii) : bool := (code c =? 10)%nat.

(** [cur] is the line being read; [after_cr] tells that the previous
    character was a CR, so that a LF now belongs to the same boundary. *)
Fixpoint splitlines_from (cur : string) (after_cr : bool) (s : string)
  : list string :=
  match s with
  | EmptyString => if truthy cur then [cur] else []
  | String c r =>
      if after_cr && is_lf c then splitlines_from cur false r
      else if is_linebreak c then cur :: splitlines_from EmptyString (is_cr c) r
      else splitlines_from (cur +:+ String c EmptyString) false r
  end.

(** [s.splitlines()] *)
Definition splitlines (s : string) : list string :=
  splitlines_from EmptyString false s.

End Py.

(** ** Exceptions *)

Inductive exn : Type :=
| KeyError (key : string)
| ValueError (args : list string)
| TypeError (args : list string)
| AttributeError (attr : string)
| DuplicateOptionError (option_name : string)
| SphinxGherkinError (objtype : string)
| RecursionError.

Inductive Outcome (A : Type) : Type :=
| Return (a : A)
| Raise (e : exn).
Arguments Return {A} a.
Arguments Raise {A} e.

(** ** Gherkin data, as the Documenters read it *)

Record Docstring : Type := { mediatype : string; content : string }.

Record DataTable : Type := { values : list (list string) }.

(** The keyword classes of [sphinx_gherkin.gherkin].  Every node has the
    attributes [keyword] and [summary]; the other fields are the attributes
    that the Documenter written for the class reads from it. *)
Inductive Keyword : Type :=
| Feature (keyword summary description : string) (children : list Keyword)
| Rule (keyword summary : string) (children : list Keyword)
| Background (keyword summary : string) (steps : list Keyword)
| Scenario (keyword summary : string) (steps examples : list Keyword)
| Examples (keyword summary : string) (datatable : DataTable)
| Step (keyword summary : string) (docstring : option Docstring)
       (datatable : option DataTable).

Inductive KeywordClass : Type :=
| FeatureClass | RuleClass | BackgroundClass | ScenarioClass
| ExamplesClass | StepClass.

(** [k.__class__] *)
Definition class_of (k : Keyword) : KeywordClass :=
  match k with
  | Feature _ _ _ _ => FeatureClass
  | Rule _ _ _ => RuleClass
  | Background _ _ _ => BackgroundClass
  | Scenario _ _ _ _ => ScenarioClass
  | Examples _ _ _ => ExamplesClass
  | Step _ _ _ _ => StepClass
  end.

Definition kw_keyword (k : Keyword) : string :=
  match k with
  | Feature kw _ _ _ | Rule kw _ _ | Background kw _ _ | Scenario kw _ _ _
  | Examples kw _ _ | Step kw _ _ _ => kw
  end.

Definition kw_summary (k : Keyword) : string :=
  match k with
  | Feature _ sm _ _ | Rule _ sm _ | Background _ sm _ | Scenario _ sm _ _
  | Examples _ sm _ | Step _ sm _ _ => sm
  end.

(** Reading an attribute that the node's class does not have raises
    [AttributeError]. *)
Definition attr_description (k : Keyword) : Outcome string :=
  match k with
  | Feature _ _ d _ => Return d
  | _ => Raise (AttributeError "description")
  end.

Definition attr_children (k : Keyword) : Outcome (list Keyword) :=
  match k with
  | Feature _ _ _ ch | Rule _ _ ch => Return ch
  | _ => Raise (AttributeError "children")
  end.

Definition attr_steps (k : Keyword) : Outcome (list Keyword) :=
  match k with
  | Background _ _ st | Scenario _ _ st _ => Return st
  | _ => Raise (AttributeError "steps")
  end.

Definition attr_examples (k : Keyword) : Outcome (list Keyword) :=
  match k with
  | Scenario _ _ _ ex => Return ex
  | _ => Raise (AttributeError "examples")
  end.

Definition attr_docstring (k : Keyword) : Outcome (option Docstring) :=
  match k with
  | Step _ _ ds _ => Return ds
  | _ => Raise (AttributeError "docstring")
  end.

(** [Examples.datatable] is always a table, [Step.datatable] may be [None]. *)
Definition attr_datatable (k : Keyword) : Outcome (option DataTable) :=
  match k with
  | Step _ _ _ dt => Return dt
  | Examples _ _ dt => Return (Some dt)
  | _ => Raise (AttributeError "datatable")
  end.

Record Document : Type := { doc_name : string; doc_feature : Keyword }.

(** [DocumentedKeyword]: the (label, summary) pairs it is built from. *)
Definition DocumentedKeyword : Type := list (string * string).

(** ** The store *)

(** One entry of a docutils [StringList]: the text with the (source,
    offset) item kept beside it. *)
Record Line : Type := { text : string; source : string; offset : nat }.

(** A call of [log.error]: the two arguments of the message format and the
    [location] keyword. *)
Record Diagnostic : Type := {
  diag_directive : string;
  diag_exc : exn;
  diag_location : string * option nat
}.

Record St : Type := {
  result : list Line;                          (* bridge.result *)
  record_dependencies : gset string;           (* bridge.record_dependencies *)
  ref_context : gmap string DocumentedKeyword; (* env.ref_context *)
  log_errors : list Diagnostic;                (* log.error calls, oldest first *)
  settings_record_dependencies : gset string   (* state.document.settings.record_dependencies *)
}.

Definition set_result (f : list Line -> list Line) (s : St) : St :=
  {| result := f (result s);
     record_dependencies := record_dependencies s;
     ref_context := ref_context s;
     log_errors := log_errors s;
     settings_record_dependencies := settings_record_dependencies s |}.

Definition set_record_dependencies (f : gset string -> gset string) (s : St) : St :=
  {| result := result s;
     record_dependencies := f (record_dependencies s);
     ref_context := ref_context s;
     log_errors := log_errors s;
     settings_record_dependencies := settings_record_dependencies s |}.

Definition set_ref_context
  (f : gmap string DocumentedKeyword -> gmap string DocumentedKeyword) (s : St) : St :=
  {| result := result s;
     record_dependencies := record_dependencies s;
     ref_context := f (ref_context s);
     log_errors := log_errors s;
     settings_record_dependencies := settings_record_dependencies s |}.

Definition set_log_errors (f : list Diagnostic -> list Diagnostic) (s : St) : St :=
  {| result := result s;
     record_dependencies := record_dependencies s;
     ref_context := ref_context s;
     log_errors := f (log_errors s);
     settings_record_dependencies := settings_record_dependencies s |}.

Definition set_settings_record_dependencies
  (f : gset string -> gset string) (s : St) : St :=
  {| result := result s;
     record_dependencies := record_dependencies s;
     ref_context := ref_context s;
     log_errors := log_errors s;
     settings_record_dependencies := f (settings_record_dependencies s) |}.

(** ** The monad of statements *)

Definition M (A : Type) : Type := St -> St * Outcome A.

Definition ret {A} (a : A) : M A := fun s => (s, Return a).

Definition raise {A} (e : exn) : M A := fun s => (s, Raise e).

Definition bind {A B} (m : M A) (f : A -> M B) : M B :=
  fun s =>
    match m s with
    | (s', Return a) => f a s'
    | (s', Raise e) => (s', Raise e)
    end.

(** An attribute read or a pure call that may raise. *)
Definition lift {A} (o : Outcome A) : M A := fun s => (s, o).

(** A statement that only updates the store. *)
Definition update (f : St -> St) : M unit := fun s => (f s, Return tt).

Declare Scope py_scope.
Delimit Scope py_scope with py.
Notation "'let*' x ':=' m 'in' k" := (bind m (fun x => k))
  (at level 10, x name, m at level 100, k at level 200) : py_scope.
Notation "m '>>' k" := (bind m (fun _ => k))
  (at level 100, k at level 200, right associativity) : py_scope.
Local Open Scope py_scope.

(** [for x in l: body x] *)
Fixpoint for_each {A} (l : list A) (body : A -> M unit) : M unit :=
  match l with
  | [] => ret tt
  | x :: rest => body x >> for_each rest body
  end.

(** The store after running a statement, and what it returned or raised. *)
Definition exec {A} (m : M A) (s : St) : St := fst (m s).
Definition outcome {A} (m : M A) (s : St) : Outcome A := snd (m s).

(** ** Documenter classes *)

Inductive DocClass : Type :=
| Documenter
| FeatureDocumenter
| BackgroundDocumenter
| ScenarioDocumenter
| RuleDocumenter
| StepDocumenter
| ExamplesDocumenter.

Definition objtype (c : DocClass) : string :=
  match c with
  | Documenter => "object"
  | FeatureDocumenter => "feature"
  | BackgroundDocumenter => "background"
  | ScenarioDocumenter => "scenario"
  | RuleDocumenter => "rule"
  | StepDocumenter => "step"
  | ExamplesDocumenter => "examples"
  end.

Definition content_indent : string := "    ".

(** A directive option arrives as its raw text, [None] when the option was
    written without a value; a convertor of an [option_spec] returns the
    converted value or raises [ValueError] or [TypeError]. *)
Definition OptValue : Type := option string.

Inductive Converted : Type :=
| Converts (v : OptValue)
| ConvValueError (detail : string)
| ConvTypeError (detail : string).

(** An [option_spec] maps an option name to its convertor; a name may be
    mapped to [None]. *)
Definition Convertor : Type := option (OptValue -> Converted).

(** [docutils.parsers.rst.directives.flag]: no argument is allowed. *)
Definition flag (argument : OptValue) : Converted :=
  match argument with
  | Some a =>
      if Py.truthy a && Py.truthy (Py.strip a)
      then ConvValueError "no argument is allowed"
      else Converts None
  | None => Converts None
  end.

(** [Documenter.option_spec]; no subclass overrides it. *)
Definition option_spec (c : DocClass) : gmap string Convertor :=
  {[ "noindex" := Some flag ]}.

(** [format_options]: every class returns the empty dict. *)
Definition format_options (c : DocClass) : list (string * string) := [].

(** [get_directive_name]: the objtype, except for [StepDocumenter]. *)
Definition get_directive_name (c : DocClass) (k : Keyword) : string :=
  match c with
  | StepDocumenter => Py.lower (Py.strip_colon (Py.strip (kw_keyword k)))
  | _ => objtype c
  end.

(** [get_child_keywords] *)
Definition get_child_keywords (c : DocClass) (k : Keyword) : Outcome (list Keyword) :=
  match c with
  | Documenter | StepDocumenter | ExamplesDocumenter => Return []
  | FeatureDocumenter | RuleDocumenter => attr_children k
  | BackgroundDocumenter => attr_steps k
  | ScenarioDocumenter =>
      match attr_steps k with
      | Raise e => Raise e
      | Return st =>
          match attr_examples k with
          | Raise e => Raise e
          | Return ex => Return (st ++ ex)
          end
      end
  end.

(** [add_line]: the documenter's current [indent] is an argument; [lineno]
    stands for the optional trailing argument. *)
Definition add_line (indent line src : string) (lineno : option nat) : M unit :=
  if Py.truthy (Py.strip line)
  then update (set_result (fun r =>
         r ++ [ {| text := indent +:+ line; source := src;
                   offset := default 0 lineno |} ]))
  else update (set_result (fun r =>
         r ++ [ {| text := ""; source := src; offset := default 0 lineno |} ])).

(** The inner loop of [format_datatable] over the cells of one row, with
    its [first] flag. *)
Fixpoint format_cells (indent src : string) (first : bool) (cells : list string)
  : M unit :=
  match cells with
  | [] => ret tt
  | cell :: rest =>
      (if first
       then add_line indent (content_indent +:+ "* - " +:+ cell) src None
       else add_line indent (content_indent +:+ "  - " +:+ cell) src None) >>
      format_cells indent src false rest
  end.

(** [format_datatable(self, datatable)], [self] given by its indent and
    source name. *)
Definition format_datatable (indent src : string) (datatable : DataTable) : M unit :=
  add_line indent ".. list-table::" src None >>
  add_line indent "" src None >>
  for_each (values datatable) (fun line => format_cells indent src true line).

(** ** The registry and the environment of a build *)

(** A registered class that is not a subclass of [Documenter] is opaque
    here: it is given by its [option_spec] and by what constructing it on
    (bridge, document, keyword) and calling its [generate] does. *)
Record ForeignClass : Type := {
  foreign_option_spec : gmap string Convertor;
  foreign_generate : Document -> Keyword -> option (list Line) -> M unit
}.

(** A value of [env.app.registry.documenters]. *)
Inductive RegEntry : Type :=
| Gherkin (c : DocClass)
| Foreign (f : ForeignClass).

Definition entry_option_spec (e : RegEntry) : gmap string Convertor :=
  match e with
  | Gherkin c => option_spec c
  | Foreign f => foreign_option_spec f
  end.

(** ** Directives *)

Inductive DirectiveClass : Type :=
| AutoFeatureDescription
| AutoRuleDescription
| AutoBackgroundDescription
| AutoScenarioDescription
| AutoExamplesDescription
| AutoStepDescription
| AutoScenarioOutlineDescription.

(** One invocation of a directive, as docutils hands it to [run]. *)
Record Directive : Type := {
  dir_class : DirectiveClass;
  (* self.name *)
  dir_name : string;
  (* self.arguments[0]; required_arguments = 1 *)
  dir_argument : string;
  (* self.options.items(): a dict, in insertion order *)
  dir_options : list (string * OptValue);
  (* self.content *)
  dir_content : list Line;
  (* self.lineno *)
  dir_lineno : nat;
  (* reporter.get_source_and_line, None when the reporter has no such
     attribute; it returns (source, lineno) *)
  reporter_get_source_and_line : option (nat -> option string * option nat)
}.

(** What this module reads from the rest of [sphinx_gherkin] and from the
    host: constants, tables and functions that are defined elsewhere. *)
Record Env : Type := {
  (* KeywordDirectiveMixin.get_name, which may read the directive and env *)
  get_name : Directive -> St -> string -> string;
  (* GherkinDomain.name *)
  domain_name : string;
  (* env.app.registry.documenters *)
  documenters : gmap string RegEntry;
  (* sphinx_gherkin.keyword_to_objtype *)
  keyword_to_objtype : string -> string;
  (* gherkin_documents.objtype_for_keyword_class *)
  objtype_for_keyword_class : KeywordClass -> string;
  (* Document.get_ancestry: from the node up to the root *)
  get_ancestry : Document -> Keyword -> list Keyword;
  (* gherkin_documents.documents *)
  documents : gmap string Document;
  (* gherkin_documents.find_one *)
  find_one : string -> Outcome (Document * Keyword);
  (* get_config_gherkin_sources(env), in the order of the dict *)
  config_gherkin_sources : list (string * string);
  (* str(path.joinpath(sig)) *)
  joinpath : string -> string -> string;
  (* env.docname *)
  docname : string;
  (* docutils nodes and sphinx's parse_generated_content *)
  Node : Type;
  parse_generated_content : list Line -> list Node
}.

(** ** Documenter methods *)

Section Documenters.

Variable E : Env.

Definition label_summary (k : Keyword) : string * string :=
  (kw_keyword k, kw_summary k).

(** The [documented_keyword] property. *)
Definition documented_keyword (doc : Document) (k : Keyword) : DocumentedKeyword :=
  map label_summary (rev (get_ancestry E doc k)).

Definition get_sourcename (doc : Document) : string := doc_name doc.

Definition scope_key : string := domain_name E +:+ ":scope".

Definition add_directive_header
  (c : DocClass) (doc : Document) (k : Keyword) (indent sig : string) : M unit :=
  let sourcename := get_sourcename doc in
  add_line indent
    (".. " +:+ domain_name E +:+ ":" +:+ get_directive_name c k +:+ ":: " +:+ sig)
    sourcename None >>
  for_each (format_options c) (fun '(option_name, value) =>
    add_line indent (content_indent +:+ ":" +:+ option_name +:+ ": " +:+ value)
      sourcename None).

(** [Documenter.add_content] *)
Definition base_add_content (indent : string) (more_content : option (list Line))
  : M unit :=
  match more_content with
  | Some ((_ :: _) as lines) =>
      for_each lines (fun ln =>
        add_line indent (text ln) (source ln) (Some (offset ln)))
  | _ => ret tt
  end.

(** The docstring fragment of [StepDocumenter.add_content]. *)
Definition add_docstring (indent sourcename : string) (ds : Docstring) : M unit :=
  add_line indent (".. code-block:: " +:+ mediatype ds) sourcename None >>
  add_line indent "" sourcename None >>
  for_each (Py.splitlines (content ds)) (fun line =>
    add_line indent (content_indent +:+ line) sourcename None) >>
  add_line indent "" sourcename None.

(** [add_content], by class. *)
Definition add_content
  (c : DocClass) (doc : Document) (k : Keyword) (indent : string)
  (more_content : option (list Line)) : M unit :=
  let sourcename := get_sourcename doc in
  match c with
  | FeatureDocumenter =>
      let* description := lift (attr_description k) in
      for_each (Py.splitlines description) (fun line =>
        add_line indent (Py.lstrip line) sourcename None) >>
      base_add_content indent more_content
  | StepDocumenter =>
      let* docstring := lift (attr_docstring k) in
      match docstring with
      | Some ds => add_docstring indent sourcename ds
      | None => ret tt
      end >>
      let* datatable := lift (attr_datatable k) in
      match datatable with
      | Some dt =>
          format_datatable indent sourcename dt >>
          add_line indent "" sourcename None
      | None => ret tt
      end >>
      base_add_content indent more_content
  | ExamplesDocumenter =>
      let* datatable := lift (attr_datatable k) in
      match datatable with
      | Some dt => format_datatable indent sourcename dt
      | None =>
          (* format_datatable(self, None) fails at datatable.values *)
          add_line indent ".. list-table::" sourcename None >>
          add_line indent "" sourcename None >>
          raise (AttributeError "values")
      end >>
      add_line indent "" sourcename None >>
      base_add_content indent more_content
  | _ => base_add_content indent more_content
  end.

(** The body of the loop of [document_members], for one [child];
    [generate] is the method called on the documenter of the child. *)
Definition document_member
  (generate : DocClass -> Document -> Keyword -> string -> option (list Line) -> M unit)
  (doc : Document) (indent : string) (child : Keyword) : M unit :=
  let objtype := objtype_for_keyword_class E (class_of child) in
  match documenters E !! objtype with
  | None => raise (KeyError objtype)
  | Some (Gherkin documenter_class) =>
      generate documenter_class doc child indent None
  | Some (Foreign _) => raise (SphinxGherkinError objtype)
  end.

(** [document_members] *)
Definition document_members
  (generate : DocClass -> Document -> Keyword -> string -> option (list Line) -> M unit)
  (c : DocClass) (doc : Document) (k : Keyword) (indent : string) : M unit :=
  let* children := lift (get_child_keywords c k) in
  for_each children (document_member generate doc indent).

(** The statements of [generate]; the recursive call goes through
    [document_members]. *)
Definition generate_body
  (generate : DocClass -> Document -> Keyword -> string -> option (list Line) -> M unit)
  (c : DocClass) (doc : Document) (k : Keyword) (indent : string)
  (more_content : option (list Line)) : M unit :=
  update (set_record_dependencies (fun deps => deps ∪ {[ doc_name doc ]})) >>
  let sourcename := get_sourcename doc in
  add_directive_header c doc k indent (kw_summary k) >>
  add_line indent "" sourcename None >>
  let indent := indent +:+ content_indent in
  update (set_ref_context (<[ scope_key := documented_keyword doc k ]>)) >>
  add_content c doc k indent more_content >>
  add_line indent "" sourcename None >>
  document_members generate c doc k indent.

(** [generate] with its nested calls cut off below [depth] levels. *)
Fixpoint generate_at (depth : nat)
  (c : DocClass) (doc : Document) (k : Keyword) (indent : string)
  (more_content : option (list Line)) : M unit :=
  match depth with
  | O => raise RecursionError
  | S depth' => generate_body (generate_at depth') c doc k indent more_content
  end.

(** The number of nested levels below a node. *)
Fixpoint kw_height (k : Keyword) : nat :=
  match k with
  | Feature _ _ _ ch => S (list_max (map kw_height ch))
  | Rule _ _ ch => S (list_max (map kw_height ch))
  | Background _ _ st => S (list_max (map kw_height st))
  | Scenario _ _ st ex =>
      S (Nat.max (list_max (map kw_height st)) (list_max (map kw_height ex)))
  | Examples _ _ _ => O
  | Step _ _ _ _ => O
  end.

(** [Documenter.generate]: the keyword tree is finite, and no nested call
    goes deeper than the height of the node, so that [generate] satisfies
    the recursive equation of the source ([generate_unfold]) and never
    raises [RecursionError] ([generate_raises_only]). *)
Definition generate
  (c : DocClass) (doc : Document) (k : Keyword) (indent : string)
  (more_content : option (list Line)) : M unit :=
  generate_at (S (kw_height k)) c doc k indent more_content.

End Documenters.

(** ** Directive methods *)

(** [docutils.utils.assemble_option_dict]: the options converted one after
    the other into the dict [options]; an unknown name, or one mapped to
    [None], raises [KeyError], a second occurrence of a name raises
    [DuplicateOptionError], and a failing convertor raises again what it
    raised, with the option name put before its message. *)
Fixpoint assemble_option_dict_into
  (options : gmap string OptValue) (option_list : list (string * OptValue))
  (options_spec : gmap string Convertor) : Outcome (gmap string OptValue) :=
  match option_list with
  | [] => Return options
  | (name, value) :: rest =>
      match options_spec !! name with
      | None | Some None => Raise (KeyError name)
      | Some (Some convertor) =>
          match options !! name with
          | Some _ => Raise (DuplicateOptionError name)
          | None =>
              match convertor value with
              | Converts v =>
                  assemble_option_dict_into (<[ name := v ]> options) rest options_spec
              | ConvValueError detail => Raise (ValueError [name; detail])
              | ConvTypeError detail => Raise (TypeError [name; detail])
              end
          end
      end
  end.

Definition assemble_option_dict
  (option_list : list (string * OptValue)) (options_spec : gmap string Convertor)
  : Outcome (gmap string OptValue) :=
  assemble_option_dict_into ∅ option_list options_spec.

(** [except (KeyError, ValueError, TypeError)] *)
Definition is_option_error (exc : exn) : bool :=
  match exc with
  | KeyError _ | ValueError _ | TypeError _ => true
  | _ => false
  end.

(** [except KeyError] *)
Definition is_KeyError (exc : exn) : bool :=
  match exc with
  | KeyError _ => true
  | _ => false
  end.

(** [try: body except <caught>: handler] *)
Definition try_except {A} (body : M A) (caught : exn -> bool) (handler : exn -> M A)
  : M A :=
  fun s =>
    match body s with
    | (s', Return a) => (s', Return a)
    | (s', Raise exc) => if caught exc then handler exc s' else (s', Raise exc)
    end.

(** Reading the store. *)
Definition gets {A} (f : St -> A) : M A := fun s => (s, Return (f s)).

Section Directives.

Variable E : Env.

(** The [keyword] property; [AutoScenarioOutlineDescription] overrides it. *)
Definition keyword (d : Directive) : string :=
  match dir_class d with
  | AutoScenarioOutlineDescription => "Scenario Outline"
  | _ =>
      let name := dir_name d in
      let directivename :=
        if Py.contains ":" (Py.drop 4 name)
        then Py.after_first ":" name
        else name in
      Py.title (Py.drop 4 directivename)
  end.

Definition get_source_and_line (d : Directive) : option nat * option string :=
  match reporter_get_source_and_line d with
  | Some get =>
      let '(source, lineno) := get (dir_lineno d) in
      (lineno, source)
  | None => (None, None)
  end.

(** [AutoKeywordDescription.get_gherkin_definition] *)
Definition base_get_gherkin_definition (d : Directive) : M (Document * Keyword) :=
  let* rst_keyword := gets (fun s => get_name E d s (dir_argument d)) in
  lift (find_one E rst_keyword).

(** The [for ... else] loop of [AutoFeatureDescription.get_gherkin_definition]:
    it returns at the first candidate found in [documents], and raises
    [KeyError] when the paths are exhausted. *)
Fixpoint find_candidate (sig : string) (paths : list string) : M (Document * Keyword) :=
  match paths with
  | [] => raise (KeyError sig)
  | path :: rest =>
      let candidate := joinpath E path sig in
      match documents E !! candidate with
      | Some document =>
          let keyword := doc_feature document in
          ret (document, keyword)
      | None => find_candidate sig rest
      end
  end.

(** [get_gherkin_definition], by directive class. *)
Definition get_gherkin_definition (d : Directive) : M (Document * Keyword) :=
  match dir_class d with
  | AutoFeatureDescription =>
      let sig := dir_argument d in
      try_except
        (find_candidate sig (map snd (config_gherkin_sources E)))
        is_KeyError
        (fun _ => base_get_gherkin_definition d)
  | _ => base_get_gherkin_definition d
  end.

(** [record_dependencies(bridge)] *)
Definition record_dependencies_of_bridge : M unit :=
  update (fun s =>
    set_settings_record_dependencies (fun deps => deps ∪ record_dependencies s) s).

(** The [log.error] call of [run]. *)
Definition log_error (d : Directive) (exc : exn) (lineno : option nat) : M unit :=
  update (set_log_errors (fun log =>
    log ++ [ {| diag_directive := dir_name d; diag_exc := exc;
                diag_location := (docname E, lineno) |} ])).

(** [DocumenterBridge(...)]: a new, empty [result] and [record_dependencies]. *)
Definition new_bridge : M unit :=
  update (fun s => set_result (fun _ => []) (set_record_dependencies (fun _ => ∅) s)).

(** [AutoKeywordDescription.run]; the [log.debug] calls are left out. *)
Definition run (d : Directive) : M (list (Node E)) :=
  let '(lineno, source) := get_source_and_line d in
  (* look up target Documenter *)
  let objtype := keyword_to_objtype E (keyword d) in
  let* documenter_class :=
    match documenters E !! objtype with
    | Some cls => ret cls
    | None => raise (KeyError objtype)
    end in
  (* process the options with the selected documenter's option_spec *)
  match assemble_option_dict (dir_options d) (entry_option_spec documenter_class) with
  | Raise exc =>
      if is_option_error exc
      then log_error d exc lineno >> ret []
      else raise exc
  | Return documenter_options =>
      (* the options go to the bridge; no Documenter of this module reads them *)
      let* found := get_gherkin_definition d in
      let '(document, keyword) := found in
      (* generate the output *)
      new_bridge >>
      match documenter_class with
      | Gherkin c => generate E c document keyword "" (Some (dir_content d))
      | Foreign f => foreign_generate f document keyword (Some (dir_content d))
      end >>
      let* bridge_result := gets result in
      match bridge_result with
      | [] => ret []
      | _ :: _ =>
          record_dependencies_of_bridge >>
          ret (parse_generated_content E bridge_result)
      end
  end.

End Directives.

(** ** A sample build *)

Module Demo.

Definition remove_spaces : string -> string :=
  fix go (s : string) : string :=
    match s with
    | EmptyString => EmptyString
    | String c r => if Ascii.eqb c " " then go r else String c (go r)
    end.

(** The path from the first node of [k] that carries the label and summary
    [target] up to [k]. *)
Fixpoint path_to (target : string * string) (k : Keyword) : option (list Keyword) :=
  let among :=
    fix among (l : list Keyword) : option (list Keyword) :=
      match l with
      | [] => None
      | x :: r =>
          match path_to target x with
          | Some p => Some (p ++ [k])
          | None => among r
          end
      end in
  if bool_decide (label_summary k = target) then Some [k]
  else
    match k with
    | Feature _ _ _ ch | Rule _ _ ch => among ch
    | Background _ _ st => among st
    | Scenario _ _ st ex =>
        match among st with
        | Some p => Some p
        | None => among ex
        end
    | _ => None
    end.

Definition registry : gmap string RegEntry :=
  list_to_map
    [ ("feature", Gherkin FeatureDocumenter);
      ("rule", Gherkin RuleDocumenter);
      ("background", Gherkin BackgroundDocumenter);
      ("scenario", Gherkin ScenarioDocumenter);
      ("scenariooutline", Gherkin ScenarioDocumenter);
      ("examples", Gherkin ExamplesDocumenter);
      ("step", Gherkin StepDocumenter) ].

Definition given_step : Keyword :=
  Step "Given " "a registered user" None None.

Definition when_step : Keyword :=
  Step "When " "the user signs in"
    (Some {| mediatype := "json"; content := "{}" |})
    (Some {| values := [["a"; "b"]; ["c"; "d"]] |}).

Definition examples : Keyword :=
  Examples "Examples" "accounts" {| values := [["name"]; ["ann"]] |}.

Definition scenario : Keyword :=
  Scenario "Scenario" "Sign in" [given_step; when_step] [examples].

Definition rule : Keyword := Rule "Rule" "Known users" [scenario].

Definition feature : Keyword :=
  Feature "Feature" "Login" "Users sign in." [rule].

Definition login : Document :=
  {| doc_name := "/docs/features/login.feature"; doc_feature := feature |}.

Definition env (documenters : gmap string RegEntry) : Env :=
  {| get_name := fun _ _ sig => sig;
     domain_name := "gherkin";
     documenters := documenters;
     keyword_to_objtype := fun label => Py.lower (remove_spaces label);
     objtype_for_keyword_class := fun cls =>
       match cls with
       | FeatureClass => "feature"
       | RuleClass => "rule"
       | BackgroundClass => "background"
       | ScenarioClass => "scenario"
       | ExamplesClass => "examples"
       | StepClass => "step"
       end;
     get_ancestry := fun doc k =>
       default [k] (path_to (label_summary k) (doc_feature doc));
     documents := {[ "/docs/features/login.feature" := login ]};
     find_one := fun reference => Raise (KeyError reference);
     config_gherkin_sources := [("features", "/docs/features")];
     joinpath := fun path sig => path +:+ "/" +:+ sig;
     docname := "index";
     Node := Line;
     parse_generated_content := fun lines => lines |}.

Definition store : St :=
  {| result := []; record_dependencies := ∅; ref_context := ∅;
     log_errors := []; settings_record_dependencies := ∅ |}.

Definition directive (cls : DirectiveClass) (name argument : string)
  (options : list (string * OptValue)) : Directive :=
  {| dir_class := cls; dir_name := name; dir_argument := argument;
     dir_options := options; dir_content := []; dir_lineno := 7;
     reporter_get_source_and_line := Some (fun n => (Some "index.rst", Some n)) |}.

(** The build with every Documenter registered, and the same build with
    the Feature documenter left out of the registry. *)
Definition world : Env := env registry.

Definition world_without_feature : Env := env (delete "feature" registry).

Definition autofeature (argument : string) (options : list (string * OptValue))
  : Directive :=
  directive AutoFeatureDescription "gherkin:autofeature" argument options.

(** The store after the whole of [login] has been generated. *)
Definition generated : St :=
  exec (generate world FeatureDocumenter login feature "" None) store.

(** The build with the Step documenter left out of the registry. *)
Definition world_without_step : Env := env (delete "step" registry).

End Demo.

(** ** Vocabulary of the statements *)

(** The store with [lines] appended to [bridge.result]. *)
Definition append_lines (lines : list Line) (s : St) : St :=
  {| result := result s ++ lines;
     record_dependencies := record_dependencies s;
     ref_context := ref_context s;
     log_errors := log_errors s;
     settings_record_dependencies := settings_record_dependencies s |}.

(** The statement that appends [lines] and does nothing else. *)
Definition emit (lines : list Line) : M unit :=
  fun s => (append_lines lines s, Return tt).

(** The entry that one call of [add_line] appends. *)
Definition added_line (indent line src : string) (lineno : option nat) : Line :=
  {| text := if Py.truthy (Py.strip line) then indent +:+ line else "";
     source := src;
     offset := default 0 lineno |}.

(** An entry appended without a line number. *)
Definition plain (txt src : string) : Line :=
  {| text := txt; source := src; offset := 0 |}.

(** [s] has a character outside the set [p]. *)
Fixpoint has_other (p : ascii -> bool) (s : string) : bool :=
  match s with
  | EmptyString => false
  | String c r => negb (p c) || has_other p r
  end.

(** A statement [m] moves every store along the relation [R]. *)
Definition follows (R : St -> St -> Prop) {A} (m : M A) : Prop :=
  forall s, R s (exec m s).

(** [bridge.result] has grown by lines that satisfy [P]; nothing emitted
    before is touched. *)
Definition grows_by (P : Line -> Prop) (s s' : St) : Prop :=
  exists lines, result s' = result s ++ lines /\ Forall P lines.

(** [env.ref_context] is the same. *)
Definition same_ref_context (s s' : St) : Prop :=
  ref_context s' = ref_context s.

(** A statement [m] raises nothing but exceptions in [P]. *)
Definition raises_only (P : exn -> Prop) {A} (m : M A) : Prop :=
  forall s e, outcome m s = Raise e -> P e.

(** The exceptions of the walk: a missing attribute, a missing registry
    entry and a registered class that is not a Documenter. *)
Definition walk_error (e : exn) : Prop :=
  match e with
  | AttributeError _ | KeyError _ | SphinxGherkinError _ => True
  | _ => False
  end.

(** A line is blank or starts with [indent]. *)
Definition indented (indent : string) (l : Line) : Prop :=
  text l = "" \/ exists rest, text l = indent +:+ rest.

(** The lines of a data table, as the specification words them: per row, one item
    line for the first cell and one continuation line per later cell. *)
Definition row_lines (prefix src : string) (row : list string) : list Line :=
  match row with
  | [] => []
  | cell :: cells =>
      plain (prefix +:+ "* - " +:+ cell) src
      :: map (fun c => plain (prefix +:+ "  - " +:+ c) src) cells
  end.

Definition datatable_lines (indent src : string) (dt : DataTable) : list Line :=
  [ plain (indent +:+ ".. list-table::") src; plain "" src ]
  ++ concat (map (row_lines (indent +:+ content_indent) src) (values dt)).

(** The three fragments of the content of a Step. *)
Definition docstring_block (indent src : string) (ds : option Docstring) : list Line :=
  match ds with
  | None => []
  | Some d =>
      [ plain (indent +:+ ".. code-block:: " +:+ mediatype d) src; plain "" src ]
      ++ map (fun line => added_line indent (content_indent +:+ line) src None)
             (Py.splitlines (content d))
      ++ [ plain "" src ]
  end.

Definition datatable_block (indent src : string) (dt : option DataTable) : list Line :=
  match dt with
  | None => []
  | Some t => datatable_lines indent src t ++ [ plain "" src ]
  end.

Definition more_content_block (indent : string) (more_content : option (list Line))
  : list Line :=
  map (fun ln => added_line indent (text ln) (source ln) (Some (offset ln)))
      (default [] more_content).

Section Statements.

Variable E : Env.

(** The directive header line of a node. *)
Definition header_line (c : DocClass) (doc : Document) (k : Keyword) (indent : string)
  : Line :=
  plain (indent +:+ ".. " +:+ domain_name E +:+ ":" +:+ get_directive_name c k
         +:+ ":: " +:+ kw_summary k)
        (doc_name doc).

(** The store when [generate] reaches [add_content]: the dependency is
    recorded, the header and a blank line are emitted and the scope is
    published. *)
Definition after_header (c : DocClass) (doc : Document) (k : Keyword) (indent : string)
  (s : St) : St :=
  {| result := result s ++ [ header_line c doc k indent; plain "" (doc_name doc) ];
     record_dependencies := record_dependencies s ∪ {[ doc_name doc ]};
     ref_context := <[ scope_key E := documented_keyword E doc k ]> (ref_context s);
     log_errors := log_errors s;
     settings_record_dependencies := settings_record_dependencies s |}.

(** What [generate] does from [add_content] on. *)
Definition content_and_members
  (generate : DocClass -> Document -> Keyword -> string -> option (list Line) -> M unit)
  (c : DocClass) (doc : Document) (k : Keyword) (indent : string)
  (more_content : option (list Line)) : M unit :=
  add_content c doc k (indent +:+ content_indent) more_content >>
  add_line (indent +:+ content_indent) "" (doc_name doc) None >>
  document_members E generate c doc k (indent +:+ content_indent).

(** The node whose [generate] is the last to run in the walk from [k]:
    the last child of the last child, and so on. *)
Fixpoint last_generated_at (depth : nat) (c : DocClass) (k : Keyword) : Keyword :=
  match depth with
  | O => k
  | S depth' =>
      match get_child_keywords c k with
      | Return children =>
          match last children with
          | Some child =>
              match documenters E !! objtype_for_keyword_class E (class_of child) with
              | Some (Gherkin c') => last_generated_at depth' c' child
              | _ => k
              end
          | None => k
          end
      | Raise _ => k
      end
  end.

Definition last_generated (c : DocClass) (k : Keyword) : Keyword :=
  last_generated_at (S (kw_height k)) c k.

(** An option that [assemble_option_dict] rejects: its name is unknown to
    the [option_spec], or its value fails the convertor. *)
Definition invalid_option (spec : gmap string Convertor) (o : string * OptValue) : Prop :=
  match spec !! o.1 with
  | None | Some None => True
  | Some (Some convertor) =>
      match convertor o.2 with
      | Converts _ => False
      | _ => True
      end
  end.

(** The store after one [log.error] call of [run]. *)
Definition logged (d : Directive) (exc : exn) (s : St) : St :=
  {| result := result s;
     record_dependencies := record_dependencies s;
     ref_context := ref_context s;
     log_errors :=
       log_errors s
       ++ [ {| diag_directive := dir_name d; diag_exc := exc;
               diag_location := (docname E, (get_source_and_line d).1) |} ];
     settings_record_dependencies := settings_record_dependencies s |}.

End Statements.

(** ** Vocabulary of the further properties *)

(** What a statement of the walk does to the store: the lines it appends
    to [bridge.result], the names it adds to [bridge.record_dependencies]
    and the scope it leaves in [env.ref_context], if it publishes one. *)
Record Effect : Type := {
  eff_lines : list Line;
  eff_deps : gset string;
  eff_scope : option DocumentedKeyword
}.

Definition no_effect : Effect :=
  {| eff_lines := []; eff_deps := ∅; eff_scope := None |}.

(** One effect after the other. *)
Definition then_effect (e1 e2 : Effect) : Effect :=
  {| eff_lines := eff_lines e1 ++ eff_lines e2;
     eff_deps := eff_deps e1 ∪ eff_deps e2;
     eff_scope := match eff_scope e2 with
                  | Some dk => Some dk
                  | None => eff_scope e1
                  end |}.

Definition apply_effect (key : string) (e : Effect) (s : St) : St :=
  {| result := result s ++ eff_lines e;
     record_dependencies := record_dependencies s ∪ eff_deps e;
     ref_context := match eff_scope e with
                    | Some dk => <[ key := dk ]> (ref_context s)
                    | None => ref_context s
                    end;
     log_errors := log_errors s;
     settings_record_dependencies := settings_record_dependencies s |}.

(** [m] has one and the same effect, within [Phi], and one and the same
    outcome on every store. *)
Definition has_effect (key : string) (Phi : Effect -> Prop) {A} (m : M A) : Prop :=
  exists e o, Phi e /\ forall s, m s = (apply_effect key e s, o).

(** An entry appended during the walk of [doc]: made by [add_line], and
    attributed either to the document, without a line number, or to an
    entry of [more_content], whose text, source and offset it carries. *)
Definition walk_line (doc : Document) (more_content : option (list Line)) (l : Line)
  : Prop :=
  exists indent,
    (exists line, l = added_line indent line (doc_name doc) None)
    \/ (exists x, In x (default [] more_content)
                  /\ l = added_line indent (text x) (source x) (Some (offset x))).

Definition walk_effect (doc : Document) (more_content : option (list Line)) (e : Effect)
  : Prop :=
  eff_deps e ⊆ {[ doc_name doc ]} /\ Forall (walk_line doc more_content) (eff_lines e).

(** The calls of [add_line] in the walk of [doc]. *)
Definition walk_call (doc : Document) (more_content : option (list Line))
  (line src : string) (lineno : option nat) : Prop :=
  (src = doc_name doc /\ lineno = None)
  \/ (exists x, In x (default [] more_content)
                /\ line = text x /\ src = source x /\ lineno = Some (offset x)).

(** The effect of [generate] up to [add_content]. *)
Definition header_effect (E : Env) (c : DocClass) (doc : Document) (k : Keyword)
  (indent : string) : Effect :=
  {| eff_lines := [ header_line E c doc k indent; plain "" (doc_name doc) ];
     eff_deps := {[ doc_name doc ]};
     eff_scope := Some (documented_keyword E doc k) |}.

(** The Documenter written for each keyword class (the type parameter of
    the class definitions). *)
Definition documenter_for (cls : KeywordClass) : DocClass :=
  match cls with
  | FeatureClass => FeatureDocumenter
  | RuleClass => RuleDocumenter
  | BackgroundClass => BackgroundDocumenter
  | ScenarioClass => ScenarioDocumenter
  | ExamplesClass => ExamplesDocumenter
  | StepClass => StepDocumenter
  end.

(** The registry holds, for every keyword class, the Documenter written
    for it. *)
Definition registry_ok (E : Env) : Prop :=
  forall cls,
    documenters E !! objtype_for_keyword_class E cls
    = Some (Gherkin (documenter_for cls)).

(** The child keywords of a node, for the Documenter of its class. *)
Definition child_keywords (k : Keyword) : list Keyword :=
  match k with
  | Feature _ _ _ ch | Rule _ _ ch => ch
  | Background _ _ st => st
  | Scenario _ _ st ex => st ++ ex
  | Examples _ _ _ | Step _ _ _ _ => []
  end.

(** The content lines of a node, for the Documenter of its class. *)
Definition content_block (doc : Document) (k : Keyword) (indent : string)
  (more_content : option (list Line)) : list Line :=
  match k with
  | Feature _ _ description _ =>
      map (fun line => added_line indent (Py.lstrip line) (doc_name doc) None)
          (Py.splitlines description)
      ++ more_content_block indent more_content
  | Step _ _ ds dt =>
      docstring_block indent (doc_name doc) ds
      ++ datatable_block indent (doc_name doc) dt
      ++ more_content_block indent more_content
  | Examples _ _ dt =>
      datatable_lines indent (doc_name doc) dt
      ++ [ plain "" (doc_name doc) ]
      ++ more_content_block indent more_content
  | Rule _ _ _ | Background _ _ _ | Scenario _ _ _ _ =>
      more_content_block indent more_content
  end.

Definition empty_store : St :=
  {| result := []; record_dependencies := ∅; ref_context := ∅;
     log_errors := []; settings_record_dependencies := ∅ |}.

(** The lines that a statement appends to an empty [bridge.result]. *)
Definition lines_of {A} (m : M A) : list Line := result (exec m empty_store).

(** The first and the last character of a text. *)
Definition first_char (s : string) : option ascii :=
  match s with
  | EmptyString => None
  | String c _ => Some c
  end.

Fixpoint last_char (s : string) : option ascii :=
  match s with
  | EmptyString => None
  | String c EmptyString => Some c
  | String _ r => last_char r
  end.

(** Every character of [s] satisfies [p]. *)
Fixpoint all_chars (p : ascii -> bool) (s : string) : bool :=
  match s with
  | EmptyString => true
  | String c r => p c && all_chars p r
  end.

(** The argument of an option is absent or blank, as [flag] demands. *)
Definition no_argument (v : OptValue) : Prop :=
  match v with
  | None => True
  | Some a => Py.truthy a && Py.truthy (Py.strip a) = false
  end.

(** * Properties *)

(** ** Strings *)

Lemma append_assoc (a b c : string) : (a +:+ b) +:+ c = a +:+ (b +:+ c).
Proof.
  induction a as [|x a IH]; [reflexivity |].
  change (String x ((a +:+ b) +:+ c) = String x (a +:+ (b +:+ c))).
  f_equal. exact IH.
Qed.

Lemma rstrip_by_has_other p s :
  has_other p s = true -> has_other p (Py.rstrip_by p s) = true.
Proof.
  induction s as [|c r IH]; simpl; [easy |].
  destruct (has_other p r) eqn:Hr.
  - intros _. specialize (IH eq_refl).
    destruct (Py.rstrip_by p r) eqn:Hs; simpl in IH; [discriminate IH |].
    simpl. rewrite IH. apply orb_true_r.
  - rewrite orb_false_r. intros Hc.
    destruct (Py.rstrip_by p r) eqn:Hs.
    + destruct (p c) eqn:Hpc; [discriminate Hc |].
      simpl. rewrite Hpc. reflexivity.
    + simpl. rewrite Hc. reflexivity.
Qed.

Lemma lstrip_by_has_other p s :
  has_other p s = true -> Py.truthy (Py.lstrip_by p s) = true.
Proof.
  induction s as [|c r IH]; simpl; [easy |].
  destruct (p c); simpl; [exact IH | reflexivity].
Qed.

(** A text with a character that is not whitespace is not a blank line. *)
Lemma strip_truthy s :
  has_other Py.isspace s = true -> Py.truthy (Py.strip s) = true.
Proof.
  intros H. unfold Py.strip, Py.strip_by.
  apply lstrip_by_has_other, rstrip_by_has_other, H.
Qed.

(** ** Statements that only append lines *)

Lemma append_lines_nil s : append_lines [] s = s.
Proof. destruct s. unfold append_lines. simpl. now rewrite app_nil_r. Qed.

Lemma append_lines_app l1 l2 s :
  append_lines l2 (append_lines l1 s) = append_lines (l1 ++ l2) s.
Proof. unfold append_lines. simpl. now rewrite app_assoc. Qed.

Lemma add_line_emit indent line src lineno s :
  add_line indent line src lineno s = emit [added_line indent line src lineno] s.
Proof.
  unfold add_line, added_line, emit.
  destruct (Py.truthy (Py.strip line)); reflexivity.
Qed.

Lemma add_line_plain indent line src s :
  has_other Py.isspace line = true ->
  add_line indent line src None s = emit [plain (indent +:+ line) src] s.
Proof.
  intros H. rewrite add_line_emit. unfold added_line.
  now rewrite (strip_truthy _ H).
Qed.

Lemma add_line_blank indent src s :
  add_line indent "" src None s = emit [plain "" src] s.
Proof. reflexivity. Qed.

Lemma bind_of_emit {B} (m : M unit) (f : unit -> M B) lines s :
  m s = emit lines s -> bind m f s = f tt (append_lines lines s).
Proof. intros H. unfold bind. rewrite H. reflexivity. Qed.

Lemma emit_after lines1 lines2 s :
  emit lines2 (append_lines lines1 s) = emit (lines1 ++ lines2) s.
Proof. unfold emit. now rewrite append_lines_app. Qed.

Lemma ret_as_emit s : ret tt s = emit [] s.
Proof. unfold ret, emit. now rewrite append_lines_nil. Qed.

Lemma for_each_emit {A} (l : list A) (body : A -> M unit) (f : A -> list Line) :
  (forall x s, body x s = emit (f x) s) ->
  forall s, for_each l body s = emit (concat (map f l)) s.
Proof.
  intros Hbody. induction l as [|x l IH]; intros s; simpl.
  - apply ret_as_emit.
  - rewrite (bind_of_emit _ _ _ _ (Hbody x s)), IH. apply emit_after.
Qed.

Lemma format_cells_rest indent src cells s :
  format_cells indent src false cells s
  = emit (map (fun c => plain ((indent +:+ content_indent) +:+ "  - " +:+ c) src) cells) s.
Proof.
  revert s. induction cells as [|cell cells IH]; intros s; simpl.
  - apply ret_as_emit.
  - rewrite (bind_of_emit _ _ [plain (indent +:+ content_indent +:+ "  - " +:+ cell) src])
      by (apply add_line_plain; reflexivity).
    rewrite IH, emit_after. simpl. now rewrite append_assoc.
Qed.

Lemma format_cells_row indent src row s :
  format_cells indent src true row s
  = emit (row_lines (indent +:+ content_indent) src row) s.
Proof.
  destruct row as [|cell cells]; simpl.
  - apply ret_as_emit.
  - rewrite (bind_of_emit _ _ [plain (indent +:+ content_indent +:+ "* - " +:+ cell) src])
      by (apply add_line_plain; reflexivity).
    rewrite format_cells_rest, emit_after. simpl. now rewrite append_assoc.
Qed.

Lemma format_datatable_emit indent src dt s :
  format_datatable indent src dt s = emit (datatable_lines indent src dt) s.
Proof.
  unfold format_datatable, datatable_lines.
  rewrite (bind_of_emit _ _ [plain (indent +:+ ".. list-table::") src])
    by (apply add_line_plain; reflexivity).
  rewrite (bind_of_emit _ _ [plain "" src]) by apply add_line_blank.
  rewrite (for_each_emit _ _ (row_lines (indent +:+ content_indent) src))
    by apply format_cells_row.
  now rewrite !emit_after.
Qed.

Lemma add_docstring_emit indent src d s :
  add_docstring indent src d s = emit (docstring_block indent src (Some d)) s.
Proof.
  unfold add_docstring, docstring_block.
  rewrite (bind_of_emit _ _ [plain (indent +:+ ".. code-block:: " +:+ mediatype d) src])
    by (apply add_line_plain; reflexivity).
  rewrite (bind_of_emit _ _ [plain "" src]) by apply add_line_blank.
  rewrite (bind_of_emit _ _
    (concat (map (fun line => [added_line indent (content_indent +:+ line) src None])
                 (Py.splitlines (content d))))).
  2:{ apply for_each_emit. intros x s'. apply add_line_emit. }
  rewrite add_line_blank, !emit_after.
  f_equal. simpl. do 2 f_equal.
  induction (Py.splitlines (content d)) as [|x l IH]; simpl; [reflexivity |].
  now rewrite IH.
Qed.

Lemma base_add_content_emit indent more_content s :
  base_add_content indent more_content s = emit (more_content_block indent more_content) s.
Proof.
  unfold more_content_block.
  assert (Hloop : forall lines s',
    for_each lines (fun ln =>
      add_line indent (text ln) (source ln) (Some (offset ln))) s'
    = emit (map (fun ln =>
        added_line indent (text ln) (source ln) (Some (offset ln))) lines) s').
  { intros lines s'.
    rewrite (for_each_emit _ _ (fun ln =>
      [added_line indent (text ln) (source ln) (Some (offset ln))]))
      by (intros; apply add_line_emit).
    f_equal. induction lines as [|x l IH]; simpl; [reflexivity | now rewrite IH]. }
  unfold base_add_content. destruct more_content as [[|ln lines]|].
  - apply ret_as_emit.
  - apply (Hloop (ln :: lines)).
  - apply ret_as_emit.
Qed.

(** ** The data-table formatter *)

(** C8: [format_datatable] appends the list-table marker, a blank line and
    then, row by row, one item line [* - cell] for the first cell and one
    continuation line [  - cell] for every later cell, each behind the
    indent of the documenter and one indentation unit; rows a,b and c,d
    give the four lines of the claim, and a table without rows gives the
    marker and the blank line only. *)
Theorem format_datatable_lines (indent src : string) (s : St) :
  (forall dt,
     format_datatable indent src dt s = emit (datatable_lines indent src dt) s)
  /\ result (exec (format_datatable indent src
                     {| values := [["a"; "b"]; ["c"; "d"]] |}) s)
     = result s
       ++ [ plain (indent +:+ ".. list-table::") src;
            plain "" src;
            plain ((indent +:+ content_indent) +:+ "* - a") src;
            plain ((indent +:+ content_indent) +:+ "  - b") src;
            plain ((indent +:+ content_indent) +:+ "* - c") src;
            plain ((indent +:+ content_indent) +:+ "  - d") src ]
  /\ format_datatable indent src {| values := [] |} s
     = emit [ plain (indent +:+ ".. list-table::") src; plain "" src ] s.
Proof.
  split; [| split].
  - intros dt. apply format_datatable_emit.
  - unfold exec. rewrite format_datatable_emit. reflexivity.
  - rewrite format_datatable_emit. reflexivity.
Qed.

(** ** The content of a Step *)

(** C7: for a Step node, [add_content] appends the docstring code block
    (when there is a docstring), then the data-table block (when there is a
    data table), then the lines of [more_content], in this order, and
    returns. *)
Theorem step_content_order
  (doc : Document) (kw sm : string) (ds : option Docstring) (dt : option DataTable)
  (indent : string) (more_content : option (list Line)) (s : St) :
  add_content StepDocumenter doc (Step kw sm ds dt) indent more_content s
  = emit (docstring_block indent (doc_name doc) ds
          ++ datatable_block indent (doc_name doc) dt
          ++ more_content_block indent more_content) s.
Proof.
  unfold add_content, get_sourcename. simpl.
  unfold bind at 1. unfold lift at 1.
  rewrite (bind_of_emit _ _ (docstring_block indent (doc_name doc) ds)).
  2:{ destruct ds; [apply add_docstring_emit | apply ret_as_emit]. }
  unfold bind at 1. unfold lift at 1.
  rewrite (bind_of_emit _ _ (datatable_block indent (doc_name doc) dt)).
  2:{ destruct dt as [t|]; [| apply ret_as_emit].
      rewrite (bind_of_emit _ _ _ _ (format_datatable_emit _ _ _ _)).
      rewrite add_line_blank. apply emit_after. }
  rewrite base_add_content_emit, !emit_after, app_assoc. reflexivity.
Qed.

(** ** Sequencing *)

Lemma bind_ext {A B} (m : M A) (f g : A -> M B) s :
  (forall a s', f a s' = g a s') -> bind m f s = bind m g s.
Proof.
  intros H. unfold bind. destruct (m s) as [s' [a|e]]; [apply H | reflexivity].
Qed.

Lemma bind_returns {A B} (m : M A) (f : A -> M B) s s' b :
  bind m f s = (s', Return b) ->
  exists a s1, m s = (s1, Return a) /\ f a s1 = (s', Return b).
Proof.
  unfold bind. destruct (m s) as [s1 [a|e]]; intros H.
  - exists a, s1. split; [reflexivity | exact H].
  - discriminate H.
Qed.

Lemma for_each_ext {A} (l : list A) (body1 body2 : A -> M unit) :
  (forall x, In x l -> forall s, body1 x s = body2 x s) ->
  forall s, for_each l body1 s = for_each l body2 s.
Proof.
  induction l as [|x l IH]; intros H s; simpl; [reflexivity |].
  unfold bind. rewrite (H x (or_introl eq_refl) s).
  destruct (body2 x s) as [s' [[]|e]]; [| reflexivity].
  apply IH. intros y Hy. apply H. now right.
Qed.

Lemma for_each_app {A} (l1 l2 : list A) (body : A -> M unit) s :
  for_each (l1 ++ l2) body s = (for_each l1 body >> for_each l2 body) s.
Proof.
  revert s. induction l1 as [|x l1 IH]; intros s; simpl; [reflexivity |].
  unfold bind. destruct (body x s) as [s' [[]|e]]; [| reflexivity].
  rewrite IH. reflexivity.
Qed.

Lemma for_each_last_returns {A} (l : list A) (x : A) (body : A -> M unit) s s' :
  for_each (l ++ [x]) body s = (s', Return tt) ->
  exists s1, body x s1 = (s', Return tt).
Proof.
  rewrite for_each_app. intros H.
  apply bind_returns in H as (_ & s1 & _ & H). simpl in H.
  apply bind_returns in H as ([] & s2 & H & Hret).
  exists s1. unfold ret in Hret. now inversion Hret; subst.
Qed.

(** ** Statements that move the store along a relation *)

Section Follows.

Variable R : St -> St -> Prop.
Hypothesis R_refl : forall s, R s s.
Hypothesis R_trans : forall a b c, R a b -> R b c -> R a c.

Lemma follows_ret {A} (a : A) : follows R (ret a).
Proof. intros s. apply R_refl. Qed.

Lemma follows_raise {A} (e : exn) : follows R (@raise A e).
Proof. intros s. apply R_refl. Qed.

Lemma follows_lift {A} (o : Outcome A) : follows R (lift o).
Proof. intros s. apply R_refl. Qed.

Lemma follows_bind {A B} (m : M A) (f : A -> M B) :
  follows R m -> (forall a, follows R (f a)) -> follows R (bind m f).
Proof.
  intros Hm Hf s. specialize (Hm s). unfold exec, bind in *.
  destruct (m s) as [s1 [a|e]]; simpl in *; [| exact Hm].
  eapply R_trans; [exact Hm | apply Hf].
Qed.

Lemma follows_for_each {A} (l : list A) (body : A -> M unit) :
  (forall x, follows R (body x)) -> follows R (for_each l body).
Proof.
  intros H. induction l as [|x l IH]; simpl.
  - apply follows_ret.
  - apply follows_bind; [apply H | intros _; exact IH].
Qed.

(** The indents [Q] at which [add_line] is known to follow [R]. *)
Variable Q : string -> Prop.
Hypothesis Q_deeper : forall indent, Q indent -> Q (indent +:+ content_indent).
Hypothesis R_add_line :
  forall indent line src lineno, Q indent -> follows R (add_line indent line src lineno).

Lemma follows_format_cells indent src first cells :
  Q indent -> follows R (format_cells indent src first cells).
Proof.
  intros HQ. revert first. induction cells as [|cell cells IH]; intros first; simpl.
  - apply follows_ret.
  - apply follows_bind; [| intros _; apply IH].
    destruct first; now apply R_add_line.
Qed.

Lemma follows_format_datatable indent src dt :
  Q indent -> follows R (format_datatable indent src dt).
Proof.
  intros HQ. unfold format_datatable.
  repeat (apply follows_bind; [now apply R_add_line | intros _]).
  apply follows_for_each. intros row. now apply follows_format_cells.
Qed.

Lemma follows_base_add_content indent more_content :
  Q indent -> follows R (base_add_content indent more_content).
Proof.
  intros HQ. unfold base_add_content.
  destruct more_content as [[|ln lines]|]; try apply follows_ret.
  apply follows_for_each. intros x. now apply R_add_line.
Qed.

Lemma follows_add_docstring indent src d :
  Q indent -> follows R (add_docstring indent src d).
Proof.
  intros HQ. unfold add_docstring.
  repeat (apply follows_bind; [now apply R_add_line | intros _]).
  apply follows_bind; [| intros _; now apply R_add_line].
  apply follows_for_each. intros x. now apply R_add_line.
Qed.

Lemma follows_add_content c doc k indent more_content :
  Q indent -> follows R (add_content c doc k indent more_content).
Proof.
  intros HQ. unfold add_content.
  destruct c; try now apply follows_base_add_content.
  - apply follows_bind; [apply follows_lift | intros description].
    apply follows_bind; [| intros _; now apply follows_base_add_content].
    apply follows_for_each. intros x. now apply R_add_line.
  - apply follows_bind; [apply follows_lift | intros docstring].
    apply follows_bind.
    { destruct docstring; [now apply follows_add_docstring | apply follows_ret]. }
    intros _. apply follows_bind; [apply follows_lift | intros datatable].
    apply follows_bind; [| intros _; now apply follows_base_add_content].
    destruct datatable; [| apply follows_ret].
    apply follows_bind; [now apply follows_format_datatable | intros _].
    now apply R_add_line.
  - apply follows_bind; [apply follows_lift | intros datatable].
    apply follows_bind.
    { destruct datatable; [now apply follows_format_datatable |].
      repeat (apply follows_bind; [now apply R_add_line | intros _]).
      apply follows_raise. }
    intros _. apply follows_bind; [now apply R_add_line | intros _].
    now apply follows_base_add_content.
Qed.

(** The whole walk, when the relation also holds across the two updates that
    [generate] makes outside [bridge.result]. *)
Hypothesis R_record_dependencies :
  forall f, follows R (update (set_record_dependencies f)).
Hypothesis R_ref_context :
  forall f, follows R (update (set_ref_context f)).

Lemma follows_generate_at E depth :
  forall c doc k indent more_content,
    Q indent -> follows R (generate_at E depth c doc k indent more_content).
Proof.
  induction depth as [|depth IH]; intros c doc k indent more_content HQ; simpl.
  - apply follows_raise.
  - unfold generate_body, add_directive_header, format_options. simpl.
    apply follows_bind; [apply R_record_dependencies | intros _].
    apply follows_bind.
    { apply follows_bind; [now apply R_add_line | intros _; apply follows_ret]. }
    intros _. apply follows_bind; [now apply R_add_line | intros _].
    apply follows_bind; [apply R_ref_context | intros _].
    apply follows_bind; [apply follows_add_content, Q_deeper, HQ | intros _].
    apply follows_bind; [apply R_add_line, Q_deeper, HQ | intros _].
    unfold document_members.
    apply follows_bind; [apply follows_lift | intros children].
    apply follows_for_each. intros child. unfold document_member.
    destruct (documenters E !! _) as [[c'|f]|]; try apply follows_raise.
    apply IH, Q_deeper, HQ.
Qed.

End Follows.

(** ** The shape of [generate] *)

Lemma append_nil_r (a : string) : a +:+ "" = a.
Proof.
  induction a as [|x a IH]; [reflexivity |].
  change (String x (a +:+ "") = String x a). now rewrite IH.
Qed.

Lemma grows_by_refl P s : grows_by P s s.
Proof. exists []. split; [now rewrite app_nil_r | constructor]. Qed.

Lemma grows_by_trans P a b c : grows_by P a b -> grows_by P b c -> grows_by P a c.
Proof.
  intros (l1 & H1 & F1) (l2 & H2 & F2). exists (l1 ++ l2). split.
  - now rewrite H2, H1, app_assoc.
  - apply Forall_app. now split.
Qed.

Lemma grows_by_add_line base indent line src lineno :
  (exists rest, indent = base +:+ rest) ->
  follows (grows_by (indented base)) (add_line indent line src lineno).
Proof.
  intros (rest & ->) s. unfold exec. rewrite add_line_emit. simpl.
  eexists. split; [reflexivity |]. constructor; [| constructor].
  unfold indented, added_line. simpl.
  destruct (Py.truthy _); [right | now left].
  exists (rest +:+ line). apply append_assoc.
Qed.

(** Whatever [generate] appends is blank or starts with the indent it was
    called at, and nothing emitted before is touched; this holds also when
    the walk ends in an exception. *)
Lemma generate_at_indented E depth c doc k indent more_content :
  follows (grows_by (indented indent))
          (generate_at E depth c doc k indent more_content).
Proof.
  apply (follows_generate_at _ (grows_by_refl _) (grows_by_trans _)
           (fun i => exists rest, i = indent +:+ rest)).
  - intros i (rest & ->). exists (rest +:+ content_indent). apply append_assoc.
  - intros i line src lineno. apply grows_by_add_line.
  - intros f s. exists []. split; [simpl; now rewrite app_nil_r | constructor].
  - intros f s. exists []. split; [simpl; now rewrite app_nil_r | constructor].
  - exists "". now rewrite append_nil_r.
Qed.

Lemma content_and_members_indented E depth c doc k indent more_content :
  follows (grows_by (indented (indent +:+ content_indent)))
          (content_and_members E (generate_at E depth) c doc k indent more_content).
Proof.
  set (Q := fun i => exists rest, i = (indent +:+ content_indent) +:+ rest).
  assert (HQ : Q (indent +:+ content_indent)) by (exists ""; now rewrite append_nil_r).
  unfold content_and_members.
  apply (follows_bind _ (grows_by_trans _)).
  { apply (follows_add_content _ (grows_by_refl _) (grows_by_trans _) Q);
      [intros; now apply grows_by_add_line | exact HQ]. }
  intros _. apply (follows_bind _ (grows_by_trans _)).
  { now apply grows_by_add_line. }
  intros _. unfold document_members.
  apply (follows_bind _ (grows_by_trans _)).
  { apply (follows_lift _ (grows_by_refl _)). }
  intros children.
  apply (follows_for_each _ (grows_by_refl _) (grows_by_trans _)).
  intros child. unfold document_member.
  destruct (documenters E !! _) as [[c'|f]|];
    try apply (follows_raise _ (grows_by_refl _)).
  apply generate_at_indented.
Qed.

(** [generate] up to [add_content]: one header line, one blank line, the
    dependency and the scope. *)
Lemma generate_body_split E gen c doc k indent more_content s :
  generate_body E gen c doc k indent more_content s
  = content_and_members E gen c doc k indent more_content
      (after_header E c doc k indent s).
Proof.
  unfold generate_body, add_directive_header, format_options, get_sourcename.
  unfold bind at 1. unfold update at 1.
  rewrite (bind_of_emit _ _ [header_line E c doc k indent]).
  2:{ simpl. rewrite (bind_of_emit _ _ [header_line E c doc k indent])
        by (apply add_line_plain; reflexivity).
      reflexivity. }
  rewrite (bind_of_emit _ _ [plain "" (doc_name doc)]) by apply add_line_blank.
  unfold bind at 1. unfold update at 1.
  unfold content_and_members. f_equal.
  unfold after_header, append_lines, set_ref_context, set_record_dependencies.
  simpl. now rewrite <- app_assoc.
Qed.

(** *** The depth bound is never reached *)

Lemma le_list_max {A} (f : A -> nat) (l : list A) (x : A) :
  In x l -> f x <= list_max (map f l).
Proof.
  induction l as [|y l IH]; simpl; [contradiction |].
  intros [->|H]; [lia |]. specialize (IH H). lia.
Qed.

Lemma child_height c k children child :
  get_child_keywords c k = Return children ->
  In child children -> kw_height child < kw_height k.
Proof.
  intros Hc Hin.
  destruct c, k; simpl in Hc; inversion Hc; subst; simpl in Hin;
    try contradiction; simpl;
    try (apply Nat.lt_succ_r, le_list_max, Hin);
    try apply in_app_or in Hin as [Hin|Hin];
    assert (Hle := le_list_max kw_height _ _ Hin); lia.
Qed.

Lemma document_members_ext E gen1 gen2 c doc k indent s :
  (forall children child, get_child_keywords c k = Return children ->
     In child children ->
     forall c' i mc s', gen1 c' doc child i mc s' = gen2 c' doc child i mc s') ->
  document_members E gen1 c doc k indent s = document_members E gen2 c doc k indent s.
Proof.
  intros H. unfold document_members, bind, lift.
  destruct (get_child_keywords c k) as [children|e] eqn:Hc; [| reflexivity].
  apply for_each_ext. intros child Hin s'. unfold document_member.
  destruct (documenters E !! _) as [[c'|f]|]; try reflexivity.
  now apply (H children).
Qed.

Lemma generate_body_ext E gen1 gen2 c doc k indent more_content s :
  (forall children child, get_child_keywords c k = Return children ->
     In child children ->
     forall c' i mc s', gen1 c' doc child i mc s' = gen2 c' doc child i mc s') ->
  generate_body E gen1 c doc k indent more_content s
  = generate_body E gen2 c doc k indent more_content s.
Proof.
  intros H. rewrite !generate_body_split. unfold content_and_members.
  apply bind_ext. intros _ s1. apply bind_ext. intros _ s2.
  now apply document_members_ext.
Qed.

Lemma generate_at_enough E n :
  forall m c doc k indent more_content s,
    kw_height k < n -> kw_height k < m ->
    generate_at E n c doc k indent more_content s
    = generate_at E m c doc k indent more_content s.
Proof.
  induction n as [|n IH]; intros m c doc k indent more_content s Hn Hm; [lia |].
  destruct m as [|m]; [lia |]. simpl.
  apply generate_body_ext. intros children child Hc Hin c' i mc s'.
  assert (Hlt := child_height _ _ _ _ Hc Hin).
  apply IH; lia.
Qed.

(** [generate] satisfies the equation that the source defines it by. *)
Lemma generate_unfold E c doc k indent more_content s :
  generate E c doc k indent more_content s
  = generate_body E (generate E) c doc k indent more_content s.
Proof.
  unfold generate at 1. simpl.
  apply generate_body_ext. intros children child Hc Hin c' i mc s'.
  assert (Hlt := child_height _ _ _ _ Hc Hin).
  unfold generate. apply generate_at_enough; lia.
Qed.

Lemma generate_split E c doc k indent more_content s :
  generate E c doc k indent more_content s
  = content_and_members E (generate E) c doc k indent more_content
      (after_header E c doc k indent s).
Proof. now rewrite generate_unfold, generate_body_split. Qed.

(** The lines after the header are one unit deeper than the header. *)
Lemma generate_header_then_body E c doc k indent more_content s :
  exists body,
    result (exec (generate E c doc k indent more_content) s)
    = result s ++ header_line E c doc k indent :: body
    /\ Forall (indented (indent +:+ content_indent)) body.
Proof.
  unfold exec, generate. simpl. rewrite generate_body_split.
  destruct (content_and_members_indented E (kw_height k) c doc k indent more_content
              (after_header E c doc k indent s)) as (lines & Hres & Hall).
  unfold exec in Hres. exists (plain "" (doc_name doc) :: lines). split.
  - rewrite Hres. simpl. now rewrite <- app_assoc.
  - constructor; [now left | exact Hall].
Qed.

Lemma append_inj_l (a b c : string) : a +:+ b = a +:+ c -> b = c.
Proof.
  induction a as [|x a IH]; intros H; [exact H |].
  apply IH. now inversion H.
Qed.

Lemma append_nonempty (a : string) (x : ascii) (b : string) :
  a +:+ String x b <> "".
Proof. destruct a; discriminate. Qed.

(** A line that is one unit deeper than [indent] is not the header line
    of a node documented at [indent]. *)
Lemma deeper_not_header E c doc k indent l :
  indented (indent +:+ content_indent) l ->
  text l <> text (header_line E c doc k indent).
Proof.
  unfold header_line. simpl. intros [H|(rest & H)] Heq; rewrite H in Heq.
  - symmetry in Heq. now apply append_nonempty in Heq.
  - rewrite append_assoc in Heq. apply append_inj_l in Heq. discriminate Heq.
Qed.

(** ** The directive header *)

(** C4: for every Documenter class and node, [generate] appends the
    directive header line once: the line is made of the domain name, the
    directive name ([objtype], and for a Step the lower-cased step keyword
    without blanks and colons) and the summary; it comes first among the
    lines that [generate] appends, no later line of the node or of its
    children equals it, and content and children are produced from the
    store that already holds it. *)
Theorem generate_header_once
  (E : Env) (c : DocClass) (doc : Document) (k : Keyword) (indent : string)
  (more_content : option (list Line)) (s : St) :
  text (header_line E c doc k indent)
  = indent +:+ ".. " +:+ domain_name E +:+ ":" +:+ get_directive_name c k
    +:+ ":: " +:+ kw_summary k
  /\ get_directive_name StepDocumenter k
     = Py.lower (Py.strip_colon (Py.strip (kw_keyword k)))
  /\ (c = StepDocumenter \/ get_directive_name c k = objtype c)
  /\ (exists body,
        result (exec (generate E c doc k indent more_content) s)
        = result s ++ header_line E c doc k indent :: body
        /\ Forall (fun l => text l <> text (header_line E c doc k indent)) body)
  /\ generate E c doc k indent more_content s
     = content_and_members E (generate E) c doc k indent more_content
         (after_header E c doc k indent s)
  /\ result (after_header E c doc k indent s)
     = result s ++ [ header_line E c doc k indent; plain "" (doc_name doc) ].
Proof.
  repeat split.
  - destruct c; (now left) || (now right).
  - destruct (generate_header_then_body E c doc k indent more_content s)
      as (body & Hres & Hall).
    exists body. split; [exact Hres |].
    eapply Forall_impl; [exact Hall |]. intros l. apply deeper_not_header.
  - apply generate_split.
Qed.

(** ** Indentation *)

Lemma add_directive_header_emit E c doc k indent s :
  add_directive_header E c doc k indent (kw_summary k) s
  = emit [header_line E c doc k indent] s.
Proof.
  unfold add_directive_header, format_options, get_sourcename. simpl.
  rewrite (bind_of_emit _ _ [header_line E c doc k indent])
    by (apply add_line_plain; reflexivity).
  reflexivity.
Qed.

(** C5: a node documented at [indent] has its header (and option lines, of
    which no class has any) at [indent], and every other line it appends,
    content and children alike, is blank or starts with [indent] plus one
    [content_indent]; each child keyword is generated at that deeper
    indent, so its header sits exactly one unit below the parent's and all
    its lines are blank or start with the parent's indent plus one unit. *)
Theorem child_indentation
  (E : Env) (c : DocClass) (doc : Document) (k : Keyword) (indent : string)
  (more_content : option (list Line)) (s : St)
  (children : list Keyword) (child : Keyword) (c' : DocClass)
  (Hchildren : get_child_keywords c k = Return children)
  (Hchild : In child children)
  (Hclass : documenters E !! objtype_for_keyword_class E (class_of child)
            = Some (Gherkin c')) :
  add_directive_header E c doc k indent (kw_summary k) s
  = emit [ plain (indent +:+ ".. " +:+ domain_name E +:+ ":"
                  +:+ get_directive_name c k +:+ ":: " +:+ kw_summary k)
                 (doc_name doc) ] s
  /\ (exists body,
        result (exec (generate E c doc k indent more_content) s)
        = result s ++ header_line E c doc k indent :: body
        /\ Forall (indented (indent +:+ content_indent)) body)
  /\ generate E c doc k indent more_content s
     = content_and_members E (generate E) c doc k indent more_content
         (after_header E c doc k indent s)
  /\ (forall s',
        document_member E (generate E) doc (indent +:+ content_indent) child s'
        = generate E c' doc child (indent +:+ content_indent) None s')
  /\ (forall s', exists body',
        result (exec (generate E c' doc child (indent +:+ content_indent) None) s')
        = result s'
          ++ plain ((indent +:+ content_indent) +:+ ".. " +:+ domain_name E +:+ ":"
                    +:+ get_directive_name c' child +:+ ":: " +:+ kw_summary child)
                   (doc_name doc)
             :: body'
        /\ Forall (indented ((indent +:+ content_indent) +:+ content_indent)) body').
Proof.
  split; [apply add_directive_header_emit |].
  split; [apply generate_header_then_body |].
  split; [apply generate_split |].
  split.
  - intros s'. unfold document_member. now rewrite Hclass.
  - intros s'. apply generate_header_then_body.
Qed.

(** ** The children of a Scenario *)

(** C6: the child keywords of a Scenario are its steps followed by its
    examples, and [document_members] generates all the steps before the
    first of the examples: the lines of the steps come first in the
    output. *)
Theorem scenario_steps_before_examples
  (E : Env)
  (gen : DocClass -> Document -> Keyword -> string -> option (list Line) -> M unit)
  (doc : Document) (kw sm : string) (steps examples : list Keyword)
  (indent : string) (s : St) :
  get_child_keywords ScenarioDocumenter (Scenario kw sm steps examples)
  = Return (steps ++ examples)
  /\ document_members E gen ScenarioDocumenter doc (Scenario kw sm steps examples)
       indent s
     = (for_each steps (document_member E gen doc indent) >>
        for_each examples (document_member E gen doc indent)) s
  /\ exists step_lines example_lines,
       result (exec (for_each steps (document_member E (generate E) doc indent)) s)
       = result s ++ step_lines
       /\ result (exec (document_members E (generate E) ScenarioDocumenter doc
                          (Scenario kw sm steps examples) indent) s)
          = result s ++ step_lines ++ example_lines.
Proof.
  split; [reflexivity |]. split.
  - unfold document_members. simpl. unfold bind at 1. unfold lift.
    apply for_each_app.
  - assert (Hloop : forall l,
      follows (grows_by (indented indent))
              (for_each l (document_member E (generate E) doc indent))).
    { intros l. apply (follows_for_each _ (grows_by_refl _) (grows_by_trans _)).
      intros child. unfold document_member.
      destruct (documenters E !! _) as [[c'|f]|];
        try apply (follows_raise _ (grows_by_refl _)).
      apply generate_at_indented. }
    destruct (Hloop steps s) as (step_lines & Hsteps & _).
    exists step_lines.
    unfold document_members. simpl. unfold exec, bind at 1, lift.
    rewrite for_each_app. unfold bind, exec in *.
    destruct (for_each steps _ s) as [s1 [[]|e]]; simpl in *.
    + destruct (Hloop examples s1) as (example_lines & Hex & _).
      exists example_lines. unfold exec in Hex.
      split; [exact Hsteps |]. now rewrite Hex, Hsteps, app_assoc.
    + exists []. split; [exact Hsteps |]. now rewrite app_nil_r.
Qed.

(** ** The published scope *)

Lemma same_ref_context_refl s : same_ref_context s s.
Proof. reflexivity. Qed.

Lemma same_ref_context_trans a b c :
  same_ref_context a b -> same_ref_context b c -> same_ref_context a c.
Proof. unfold same_ref_context. congruence. Qed.

Lemma add_line_keeps_ref_context indent line src lineno :
  follows same_ref_context (add_line indent line src lineno).
Proof. intros s. unfold exec. now rewrite add_line_emit. Qed.

(** Emitting the content of a node leaves [env.ref_context] as it is. *)
Lemma add_content_keeps_ref_context c doc k indent more_content :
  follows same_ref_context (add_content c doc k indent more_content).
Proof.
  apply (follows_add_content _ same_ref_context_refl same_ref_context_trans
           (fun _ => True)); [| exact I].
  intros. apply add_line_keeps_ref_context.
Qed.

(** C9: the scope that [generate] builds for a node is the list of the
    (label, summary) pairs of [get_ancestry] in reverse, hence root first
    when the ancestry runs from the node up to the root; it is stored under
    the scope key of [env.ref_context] in the store that [add_content]
    starts from, and emitting the content does not change it. *)
Theorem scope_published_before_content
  (E : Env) (c : DocClass) (doc : Document) (k : Keyword) (indent : string)
  (more_content : option (list Line)) (s : St) :
  documented_keyword E doc k = rev (map label_summary (get_ancestry E doc k))
  /\ generate E c doc k indent more_content s
     = (add_content c doc k (indent +:+ content_indent) more_content >>
        add_line (indent +:+ content_indent) "" (doc_name doc) None >>
        document_members E (generate E) c doc k (indent +:+ content_indent))
         (after_header E c doc k indent s)
  /\ ref_context (after_header E c doc k indent s) !! scope_key E
     = Some (documented_keyword E doc k)
  /\ ref_context
       (exec (add_content c doc k (indent +:+ content_indent) more_content)
             (after_header E c doc k indent s)) !! scope_key E
     = Some (documented_keyword E doc k).
Proof.
  assert (Hscope : ref_context (after_header E c doc k indent s) !! scope_key E
                   = Some (documented_keyword E doc k))
    by (simpl; apply lookup_insert_eq).
  split; [| split; [| split]].
  - unfold documented_keyword. apply map_rev.
  - apply generate_split.
  - exact Hscope.
  - rewrite add_content_keeps_ref_context. exact Hscope.
Qed.

(** After a walk that returned, the scope is the one of the node that was
    generated last. *)
Lemma generate_at_final_scope E depth :
  forall c doc k indent more_content s s',
    generate_at E depth c doc k indent more_content s = (s', Return tt) ->
    ref_context s' !! scope_key E
    = Some (documented_keyword E doc (last_generated_at E depth c k)).
Proof.
  induction depth as [|depth IH]; intros c doc k indent more_content s s' Hgen;
    [discriminate Hgen |].
  simpl in Hgen. rewrite generate_body_split in Hgen.
  unfold content_and_members in Hgen.
  apply bind_returns in Hgen as ([] & s1 & Hcontent & Hgen).
  apply bind_returns in Hgen as ([] & s2 & Hblank & Hgen).
  assert (Hs2 : ref_context s2 !! scope_key E = Some (documented_keyword E doc k)).
  { assert (H1 := add_content_keeps_ref_context c doc k
                    (indent +:+ content_indent) more_content
                    (after_header E c doc k indent s)).
    assert (H2 := add_line_keeps_ref_context (indent +:+ content_indent) ""
                    (doc_name doc) None s1).
    unfold exec, same_ref_context in H1, H2.
    rewrite Hcontent in H1. rewrite Hblank in H2. simpl in H1, H2.
    rewrite H2, H1. simpl. apply lookup_insert_eq. }
  unfold document_members in Hgen.
  apply bind_returns in Hgen as (children & s3 & Hchildren & Hgen).
  unfold lift in Hchildren. inversion Hchildren; subst s3. clear Hchildren.
  simpl. rewrite H1.
  destruct (last children) as [child|] eqn:Hlast.
  - apply last_Some in Hlast as (init & ->).
    apply for_each_last_returns in Hgen as (s3 & Hmember).
    unfold document_member in Hmember.
    destruct (documenters E !! _) as [[c'|f]|]; try discriminate Hmember.
    now apply IH in Hmember.
  - apply last_None in Hlast. subst children. simpl in Hgen.
    unfold ret in Hgen. inversion Hgen; subst. exact Hs2.
Qed.

Lemma last_generated_at_enough E n :
  forall m c k,
    kw_height k < n -> kw_height k < m ->
    last_generated_at E n c k = last_generated_at E m c k.
Proof.
  induction n as [|n IH]; intros m c k Hn Hm; [lia |].
  destruct m as [|m]; [lia |]. simpl.
  destruct (get_child_keywords c k) as [children|e] eqn:Hc; [| reflexivity].
  destruct (last children) as [child|] eqn:Hlast; [| reflexivity].
  destruct (documenters E !! _) as [[c'|f]|]; try reflexivity.
  assert (Hin : In child children).
  { apply last_Some in Hlast as (init & ->). apply in_or_app. right. now left. }
  assert (Hlt := child_height _ _ _ _ Hc Hin).
  apply IH; lia.
Qed.

(** The node generated last is the one generated last below the last
    child keyword. *)
Lemma last_generated_unfold E c k children child c' :
  get_child_keywords c k = Return children ->
  last children = Some child ->
  documenters E !! objtype_for_keyword_class E (class_of child) = Some (Gherkin c') ->
  last_generated E c k = last_generated E c' child.
Proof.
  intros Hc Hlast Hreg. unfold last_generated at 1. simpl.
  rewrite Hc, Hlast, Hreg.
  assert (Hin : In child children).
  { apply last_Some in Hlast as (init & ->). apply in_or_app. right. now left. }
  assert (Hlt := child_height _ _ _ _ Hc Hin).
  unfold last_generated. apply last_generated_at_enough; lia.
Qed.

(** C10: when [generate] has returned for a node with at least one child
    keyword, the scope entry of [env.ref_context] is the snapshot of the
    node generated last in the walk (the last child of the last child, and
    so on); it is the node's own snapshot only if the two snapshots are the
    same list, which they are not when the two ancestries differ in
    length. *)
Theorem scope_left_at_last_descendant
  (E : Env) (c : DocClass) (doc : Document) (k : Keyword) (indent : string)
  (more_content : option (list Line)) (s s' : St) (children : list Keyword)
  (Hreturns : generate E c doc k indent more_content s = (s', Return tt))
  (Hchildren : get_child_keywords c k = Return children)
  (Hsome : children <> []) :
  ref_context s' !! scope_key E
  = Some (documented_keyword E doc (last_generated E c k))
  /\ (exists child c',
        last children = Some child
        /\ documenters E !! objtype_for_keyword_class E (class_of child)
           = Some (Gherkin c')
        /\ last_generated E c k = last_generated E c' child)
  /\ (length (get_ancestry E doc (last_generated E c k))
      <> length (get_ancestry E doc k) ->
      ref_context s' !! scope_key E <> Some (documented_keyword E doc k)).
Proof.
  assert (Hscope := generate_at_final_scope E _ _ _ _ _ _ _ _ Hreturns).
  fold (last_generated E c k) in Hscope.
  split; [exact Hscope |]. split.
  - destruct (last children) as [child|] eqn:Hlast;
      [| now apply last_None in Hlast].
    unfold generate in Hreturns. simpl in Hreturns.
    rewrite generate_body_split in Hreturns. unfold content_and_members in Hreturns.
    apply bind_returns in Hreturns as ([] & s1 & _ & Hreturns).
    apply bind_returns in Hreturns as ([] & s2 & _ & Hreturns).
    unfold document_members in Hreturns.
    apply bind_returns in Hreturns as (children' & s3 & Heq & Hreturns).
    unfold lift in Heq. rewrite Hchildren in Heq. inversion Heq; subst. clear Heq.
    apply last_Some in Hlast as Hl. destruct Hl as (init & Hl).
    rewrite Hl in Hreturns.
    apply for_each_last_returns in Hreturns as (s4 & Hmember).
    unfold document_member in Hmember.
    destruct (documenters E !! _) as [[c'|f]|] eqn:Hreg; try discriminate Hmember.
    exists child, c'. split; [reflexivity |]. split; [exact Hreg |].
    now apply (last_generated_unfold E c k children' child c').
  - intros Hlen Heq. rewrite Hscope in Heq. inversion Heq as [Hdk].
    apply Hlen. unfold documented_keyword in Hdk.
    apply (f_equal (@length _)) in Hdk.
    now rewrite !length_map, !length_rev in Hdk.
Qed.

(** ** The directive: unregistered kinds and invalid options *)

(** C1, as the code has it: when no Documenter is registered under the
    objtype of the directive's keyword, the registry lookup of [run] raises
    [KeyError]; the lookup is outside the [try] block, so the exception
    leaves [run], and the store is as before: nothing is logged and nothing
    is generated. *)
Theorem unregistered_kind_raises
  (E : Env) (d : Directive) (s : St)
  (Hmissing : documenters E !! keyword_to_objtype E (keyword d) = None) :
  run E d s = (s, Raise (KeyError (keyword_to_objtype E (keyword d)))).
Proof.
  unfold run. destruct (get_source_and_line d) as [lineno source].
  unfold bind. now rewrite Hmissing.
Qed.

Lemma assemble_option_dict_into_invalid spec option_list :
  forall options,
    NoDup (map fst option_list) ->
    (forall name, In name (map fst option_list) -> options !! name = None) ->
    Exists (invalid_option spec) option_list ->
    exists exc,
      is_option_error exc = true
      /\ assemble_option_dict_into options option_list spec = Raise exc.
Proof.
  induction option_list as [|[name value] rest IH];
    intros options Hnodup Hfresh Hbad; [inversion Hbad |].
  simpl. destruct (spec !! name) as [[convertor|]|] eqn:Hspec;
    [| exists (KeyError name); now split | exists (KeyError name); now split].
  rewrite (Hfresh name (or_introl eq_refl)).
  destruct (convertor value) as [v|detail|detail] eqn:Hconv;
    [| exists (ValueError [name; detail]); now split
     | exists (TypeError [name; detail]); now split].
  simpl in Hnodup. apply NoDup_cons in Hnodup as [Hnotin Hnodup].
  apply IH; [exact Hnodup | |].
  - intros n Hn. rewrite lookup_insert_ne.
    + apply Hfresh. now right.
    + intros ->. apply Hnotin. now apply list_elem_of_In.
  - inversion Hbad as [? ? Hhead|? ? Htail]; subst; [| exact Htail].
    exfalso. unfold invalid_option in Hhead. simpl in Hhead.
    now rewrite Hspec, Hconv in Hhead.
Qed.

(** C2: when a Documenter is registered for the directive and one of the
    options has a name unknown to its [option_spec] or a value that its
    convertor rejects, [run] makes exactly one [log.error] call, located at
    (docname, lineno), and returns the empty list: no exception leaves
    [run] and [bridge.result] is untouched. *)
Theorem invalid_option_reported
  (E : Env) (d : Directive) (s : St) (cls : RegEntry)
  (Hregistered : documenters E !! keyword_to_objtype E (keyword d) = Some cls)
  (Hdict : NoDup (map fst (dir_options d)))
  (Hinvalid : Exists (invalid_option (entry_option_spec cls)) (dir_options d)) :
  exists exc,
    is_option_error exc = true
    /\ run E d s = (logged E d exc s, Return [])
    /\ log_errors (logged E d exc s)
       = log_errors s
         ++ [ {| diag_directive := dir_name d; diag_exc := exc;
                 diag_location := (docname E, (get_source_and_line d).1) |} ]
    /\ result (logged E d exc s) = result s.
Proof.
  destruct (assemble_option_dict_into_invalid (entry_option_spec cls)
              (dir_options d) ∅ Hdict) as (exc & Hexc & Hraise);
    [intros; apply lookup_empty | exact Hinvalid |].
  exists exc. split; [exact Hexc |]. split; [| split; reflexivity].
  unfold run, logged. destruct (get_source_and_line d) as [lineno source].
  unfold bind at 1. rewrite Hregistered. unfold ret at 1.
  unfold assemble_option_dict. rewrite Hraise, Hexc. reflexivity.
Qed.

(** ** The directive: resolving a Feature reference *)

Lemma find_candidate_found E sig paths :
  forall before path after document s,
    paths = before ++ path :: after ->
    Forall (fun p => documents E !! joinpath E p sig = None) before ->
    documents E !! joinpath E path sig = Some document ->
    find_candidate E sig paths s = (s, Return (document, doc_feature document)).
Proof.
  intros before. revert paths.
  induction before as [|p before IH]; intros paths path after document s -> Hnone Hsome;
    simpl.
  - now rewrite Hsome.
  - apply Forall_cons in Hnone as [Hp Hnone]. rewrite Hp. now apply (IH _ path after).
Qed.

Lemma find_candidate_missing E sig paths s :
  Forall (fun p => documents E !! joinpath E p sig = None) paths ->
  find_candidate E sig paths s = (s, Raise (KeyError sig)).
Proof.
  induction paths as [|p paths IH]; intros Hnone; simpl; [reflexivity |].
  apply Forall_cons in Hnone as [Hp Hnone]. rewrite Hp. now apply IH.
Qed.

(** C3: for a Feature directive, the reference is joined to each configured
    source root in order and looked up in the document store; the first
    root whose joined path is a key gives the Document stored there and its
    Feature; when no root matches, the result is that of [find_one] on the
    name of the reference, a [find_one] failure included.  The other
    directives go to [find_one] at once. *)
Theorem feature_reference_resolution
  (E : Env) (d : Directive) (s : St)
  (Hfeature : dir_class d = AutoFeatureDescription) :
  (forall before root after document,
     map snd (config_gherkin_sources E) = before ++ root :: after ->
     Forall (fun r => documents E !! joinpath E r (dir_argument d) = None) before ->
     documents E !! joinpath E root (dir_argument d) = Some document ->
     get_gherkin_definition E d s = (s, Return (document, doc_feature document)))
  /\ (Forall (fun r => documents E !! joinpath E r (dir_argument d) = None)
             (map snd (config_gherkin_sources E)) ->
      get_gherkin_definition E d s
      = (s, find_one E (get_name E d s (dir_argument d))))
  /\ (forall d',
        dir_class d' <> AutoFeatureDescription ->
        get_gherkin_definition E d' s
        = (s, find_one E (get_name E d' s (dir_argument d')))).
Proof.
  split; [| split].
  - intros before root after document Hroots Hnone Hsome.
    unfold get_gherkin_definition, try_except. rewrite Hfeature.
    now rewrite (find_candidate_found E _ _ before root after document s Hroots).
  - intros Hnone. unfold get_gherkin_definition, try_except. rewrite Hfeature.
    now rewrite (find_candidate_missing E _ _ s Hnone).
  - intros d' Hother. unfold get_gherkin_definition.
    destruct (dir_class d'); try reflexivity. now contradiction Hother.
Qed.

(** ** The exceptions of the walk *)

Section Raises.

Variable P : exn -> Prop.

Lemma raises_only_ret {A} (a : A) : raises_only P (ret a).
Proof. intros s e H. discriminate H. Qed.

Lemma raises_only_raise {A} (e : exn) : P e -> raises_only P (@raise A e).
Proof. intros He s e' H. unfold outcome, raise in H. simpl in H. now inversion H; subst. Qed.

Lemma raises_only_emit (m : M unit) :
  (forall s, exists lines, m s = emit lines s) -> raises_only P m.
Proof. intros Hm s e H. destruct (Hm s) as (lines & Heq). unfold outcome in H.
  rewrite Heq in H. discriminate H. Qed.

Lemma raises_only_update f : raises_only P (update f).
Proof. intros s e H. discriminate H. Qed.

Lemma raises_only_bind {A B} (m : M A) (f : A -> M B) :
  raises_only P m -> (forall a, raises_only P (f a)) -> raises_only P (bind m f).
Proof.
  intros Hm Hf s e H. unfold outcome, bind in H.
  destruct (m s) as [s1 [a|e1]] eqn:Hms.
  - now apply (Hf a s1).
  - simpl in H. inversion H; subst. apply (Hm s). unfold outcome. now rewrite Hms.
Qed.

Lemma raises_only_for_each {A} (l : list A) (body : A -> M unit) :
  (forall x, In x l -> raises_only P (body x)) -> raises_only P (for_each l body).
Proof.
  induction l as [|x l IH]; intros H; simpl.
  - apply raises_only_ret.
  - apply raises_only_bind; [apply H; now left |].
    intros _. apply IH. intros y Hy. apply H. now right.
Qed.

End Raises.

Lemma attr_raises_only {A} (attr : Keyword -> Outcome A) k :
  (forall e, attr k = Raise e -> walk_error e) ->
  raises_only walk_error (lift (attr k)).
Proof. intros H s e He. apply H. exact He. Qed.

Lemma add_content_raises_only c doc k indent more_content :
  raises_only walk_error (add_content c doc k indent more_content).
Proof.
  assert (Hbase : forall i mc, raises_only walk_error (base_add_content i mc)).
  { intros i mc. apply raises_only_emit. intros s. eexists.
    apply base_add_content_emit. }
  assert (Hline : forall i l src ln, raises_only walk_error (add_line i l src ln)).
  { intros. apply raises_only_emit. intros s. eexists. apply add_line_emit. }
  assert (Htable : forall i src dt, raises_only walk_error (format_datatable i src dt)).
  { intros. apply raises_only_emit. intros s. eexists. apply format_datatable_emit. }
  unfold add_content. destruct c; try apply Hbase.
  - apply raises_only_bind.
    { apply attr_raises_only. intros e. destruct k; simpl; intros H; inversion H;
        exact I. }
    intros description. apply raises_only_bind; [| intros _; apply Hbase].
    apply raises_only_for_each. intros x _. apply Hline.
  - apply raises_only_bind.
    { apply attr_raises_only. intros e. destruct k; simpl; intros H; inversion H;
        exact I. }
    intros docstring. apply raises_only_bind.
    { destruct docstring; [| apply raises_only_ret].
      apply raises_only_emit. intros s. eexists. apply add_docstring_emit. }
    intros _. apply raises_only_bind.
    { apply attr_raises_only. intros e. destruct k; simpl; intros H; inversion H;
        exact I. }
    intros datatable. apply raises_only_bind; [| intros _; apply Hbase].
    destruct datatable; [| apply raises_only_ret].
    apply raises_only_bind; [apply Htable | intros _; apply Hline].
  - apply raises_only_bind.
    { apply attr_raises_only. intros e. destruct k; simpl; intros H; inversion H;
        exact I. }
    intros datatable. apply raises_only_bind.
    { destruct datatable; [apply Htable |].
      repeat (apply raises_only_bind; [apply Hline | intros _]).
      now apply raises_only_raise. }
    intros _. apply raises_only_bind; [apply Hline | intros _; apply Hbase].
Qed.

Lemma get_child_keywords_raises c k e :
  get_child_keywords c k = Raise e -> walk_error e.
Proof. destruct c, k; simpl; intros H; inversion H; exact I. Qed.

(** With the depth bound above the height of the node, [generate_at]
    raises only what the source raises. *)
Lemma generate_at_raises_only E n :
  forall c doc k indent more_content,
    kw_height k < n ->
    raises_only walk_error (generate_at E n c doc k indent more_content).
Proof.
  induction n as [|n IH]; intros c doc k indent more_content Hn; [lia |].
  intros s e. unfold outcome. simpl. rewrite generate_body_split.
  revert e. apply (raises_only_bind walk_error); [apply add_content_raises_only |].
  intros _. apply raises_only_bind.
  { apply raises_only_emit. intros s'. eexists. apply add_line_emit. }
  intros _ s2 e2 H2. unfold outcome, document_members, bind, lift in H2.
  destruct (get_child_keywords c k) as [children|e'] eqn:Hc.
  - revert s2 e2 H2.
    change (raises_only walk_error
              (for_each children (document_member E (generate_at E n) doc
                                    (indent +:+ content_indent)))).
    apply raises_only_for_each. intros child Hin. unfold document_member.
    destruct (documenters E !! _) as [[c'|f]|];
      try (now apply raises_only_raise).
    apply IH. assert (Hlt := child_height _ _ _ _ Hc Hin). lia.
  - simpl in H2. inversion H2; subst. now apply (get_child_keywords_raises c k).
Qed.

(** [generate] raises nothing but what the source raises: the depth bound
    of [generate_at] is never the reason for an exception. *)
Lemma generate_raises_only E c doc k indent more_content :
  raises_only walk_error (generate E c doc k indent more_content).
Proof. apply generate_at_raises_only. lia. Qed.

(** ** The properties on the sample build *)

(** The reST that documents the sample feature. *)
Example demo_generated_text :
  map text (result Demo.generated)
  = [ ".. gherkin:feature:: Login"; "";
      "    Users sign in."; "";
      "    .. gherkin:rule:: Known users"; ""; "";
      "        .. gherkin:scenario:: Sign in"; ""; "";
      "            .. gherkin:given:: a registered user"; ""; "";
      "            .. gherkin:when:: the user signs in"; "";
      "                .. code-block:: json"; "";
      "                    {}"; "";
      "                .. list-table::"; "";
      "                    * - a";
      "                      - b";
      "                    * - c";
      "                      - d"; ""; "";
      "            .. gherkin:examples:: accounts"; "";
      "                .. list-table::"; "";
      "                    * - name";
      "                    * - ann"; ""; "" ].
Proof. vm_compute. reflexivity. Qed.

(** The label of a directive: its name without the domain and without the
    four characters of the prefix, title-cased. *)
Example demo_keyword :
  keyword (Demo.directive AutoScenarioDescription "gherkin:autoscenario" "Sign in" [])
  = "Scenario"
  /\ keyword (Demo.directive AutoScenarioOutlineDescription "gherkin:autoscenariooutline"
                "Sign in" [])
     = "Scenario Outline".
Proof. split; reflexivity. Qed.

(** The scope published for a Step three levels below its Feature. *)
Example demo_step_scope :
  documented_keyword Demo.world Demo.login Demo.when_step
  = [ ("Feature", "Login"); ("Rule", "Known users"); ("Scenario", "Sign in");
      ("When ", "the user signs in") ].
Proof. vm_compute. reflexivity. Qed.

Lemma unregistered_kind_raises_witness :
  documenters Demo.world_without_feature
    !! keyword_to_objtype Demo.world_without_feature
         (keyword (Demo.autofeature "login.feature" [])) = None
  /\ run Demo.world_without_feature (Demo.autofeature "login.feature" []) Demo.store
     = (Demo.store, Raise (KeyError "feature")).
Proof.
  split; [vm_compute; reflexivity |].
  apply (unregistered_kind_raises Demo.world_without_feature
           (Demo.autofeature "login.feature" []) Demo.store).
  vm_compute. reflexivity.
Defined.

(** With the Feature documenter missing from the registry, the autofeature
    directive does not return an empty list after logging: [run] raises
    [KeyError] and the log is empty. *)
Lemma unregistered_kind_not_reported :
  documenters Demo.world_without_feature
    !! keyword_to_objtype Demo.world_without_feature
         (keyword (Demo.autofeature "login.feature" [])) = None
  /\ outcome (run Demo.world_without_feature (Demo.autofeature "login.feature" []))
       Demo.store
     = Raise (KeyError "feature")
  /\ log_errors (exec (run Demo.world_without_feature
                         (Demo.autofeature "login.feature" [])) Demo.store) = []
  /\ ~ (exists s' : St,
          run Demo.world_without_feature (Demo.autofeature "login.feature" [])
            Demo.store
          = (s', Return [])).
Proof.
  split; [vm_compute; reflexivity |].
  split; [vm_compute; reflexivity |].
  split; [vm_compute; reflexivity |].
  intros (s' & H). apply (f_equal snd) in H. vm_compute in H. discriminate H.
Qed.

Lemma invalid_option_reported_witness :
  documenters Demo.world
    !! keyword_to_objtype Demo.world
         (keyword (Demo.autofeature "login.feature"
                     [("noindex", None); ("members", Some "all")]))
  = Some (Gherkin FeatureDocumenter)
  /\ NoDup (map fst [("noindex", None : OptValue); ("members", Some "all")])
  /\ Exists (invalid_option (option_spec FeatureDocumenter))
            [("noindex", None); ("members", Some "all")]
  /\ exists exc,
       is_option_error exc = true
       /\ run Demo.world
            (Demo.autofeature "login.feature"
               [("noindex", None); ("members", Some "all")]) Demo.store
          = (logged Demo.world
               (Demo.autofeature "login.feature"
                  [("noindex", None); ("members", Some "all")]) exc Demo.store,
             Return []).
Proof.
  assert (Hreg : documenters Demo.world
            !! keyword_to_objtype Demo.world
                 (keyword (Demo.autofeature "login.feature"
                             [("noindex", None); ("members", Some "all")]))
          = Some (Gherkin FeatureDocumenter)) by (vm_compute; reflexivity).
  assert (Hdict : NoDup (map fst [("noindex", None : OptValue); ("members", Some "all")])).
  { apply (bool_decide_unpack _). vm_compute. exact I. }
  assert (Hbad : Exists (invalid_option (option_spec FeatureDocumenter))
                   [("noindex", None); ("members", Some "all")]).
  { apply Exists_cons_tl, Exists_cons_hd. vm_compute. exact I. }
  split; [exact Hreg |]. split; [exact Hdict |]. split; [exact Hbad |].
  destruct (invalid_option_reported Demo.world
              (Demo.autofeature "login.feature"
                 [("noindex", None); ("members", Some "all")])
              Demo.store (Gherkin FeatureDocumenter) Hreg Hdict Hbad)
    as (exc & Hexc & Hrun & _).
  exists exc. split; [exact Hexc | exact Hrun].
Defined.

Lemma feature_reference_resolution_witness :
  dir_class (Demo.autofeature "login.feature" []) = AutoFeatureDescription
  /\ get_gherkin_definition Demo.world (Demo.autofeature "login.feature" []) Demo.store
     = (Demo.store, Return (Demo.login, Demo.feature))
  /\ get_gherkin_definition Demo.world (Demo.autofeature "missing.feature" []) Demo.store
     = (Demo.store, Raise (KeyError "missing.feature")).
Proof.
  split; [reflexivity |]. split.
  - apply (proj1 (feature_reference_resolution Demo.world
                    (Demo.autofeature "login.feature" []) Demo.store eq_refl)
             [] "/docs/features" [] Demo.login).
    + reflexivity.
    + constructor.
    + vm_compute. reflexivity.
  - apply (proj1 (proj2 (feature_reference_resolution Demo.world
                    (Demo.autofeature "missing.feature" []) Demo.store eq_refl))).
    constructor; [vm_compute; reflexivity | constructor].
Defined.

Lemma child_indentation_witness :
  get_child_keywords ScenarioDocumenter Demo.scenario
  = Return [Demo.given_step; Demo.when_step; Demo.examples]
  /\ In Demo.when_step [Demo.given_step; Demo.when_step; Demo.examples]
  /\ documenters Demo.world
       !! objtype_for_keyword_class Demo.world (class_of Demo.when_step)
     = Some (Gherkin StepDocumenter)
  /\ forall s', exists body',
       result (exec (generate Demo.world StepDocumenter Demo.login Demo.when_step
                       ("        " +:+ content_indent) None) s')
       = result s'
         ++ plain (("        " +:+ content_indent) +:+ ".. " +:+ "gherkin" +:+ ":"
                   +:+ "when" +:+ ":: " +:+ "the user signs in")
                  "/docs/features/login.feature"
            :: body'
       /\ Forall (indented (("        " +:+ content_indent) +:+ content_indent)) body'.
Proof.
  assert (Hreg : documenters Demo.world
            !! objtype_for_keyword_class Demo.world (class_of Demo.when_step)
          = Some (Gherkin StepDocumenter)) by (vm_compute; reflexivity).
  split; [reflexivity |]. split; [right; left; reflexivity |]. split; [exact Hreg |].
  exact (proj2 (proj2 (proj2 (proj2
    (child_indentation Demo.world ScenarioDocumenter Demo.login Demo.scenario
       "        " None Demo.store
       [Demo.given_step; Demo.when_step; Demo.examples] Demo.when_step StepDocumenter
       eq_refl (or_intror (or_introl eq_refl)) Hreg))))).
Defined.

Lemma scope_left_at_last_descendant_witness :
  generate Demo.world FeatureDocumenter Demo.login Demo.feature "" None Demo.store
  = (Demo.generated, Return tt)
  /\ get_child_keywords FeatureDocumenter Demo.feature = Return [Demo.rule]
  /\ [Demo.rule] <> []
  /\ ref_context Demo.generated !! scope_key Demo.world
     = Some [ ("Feature", "Login"); ("Rule", "Known users");
              ("Scenario", "Sign in"); ("Examples", "accounts") ]
  /\ ref_context Demo.generated !! scope_key Demo.world
     <> Some (documented_keyword Demo.world Demo.login Demo.feature).
Proof.
  assert (Hreturns :
    generate Demo.world FeatureDocumenter Demo.login Demo.feature "" None Demo.store
    = (Demo.generated, Return tt)) by (vm_compute; reflexivity).
  assert (Hsome : [Demo.rule] <> []) by discriminate.
  split; [exact Hreturns |]. split; [reflexivity |]. split; [exact Hsome |].
  destruct (scope_left_at_last_descendant Demo.world FeatureDocumenter Demo.login
              Demo.feature "" None Demo.store Demo.generated [Demo.rule]
              Hreturns eq_refl Hsome) as (Hscope & _ & Hother).
  split.
  - etransitivity; [exact Hscope | vm_compute; reflexivity].
  - apply Hother. vm_compute. discriminate.
Defined.

(** * Further properties *)

(** ** The effect of a statement *)

Lemma apply_no_effect key s : apply_effect key no_effect s = s.
Proof.
  destruct s. unfold apply_effect, no_effect. simpl.
  rewrite app_nil_r. f_equal. apply (right_id_L ∅ (∪)).
Qed.

Lemma apply_then_effect key e1 e2 s :
  apply_effect key e2 (apply_effect key e1 s) = apply_effect key (then_effect e1 e2) s.
Proof.
  unfold apply_effect, then_effect. simpl. f_equal.
  - now rewrite app_assoc.
  - now rewrite (assoc_L (∪)).
  - destruct (eff_scope e2), (eff_scope e1); try reflexivity.
    apply insert_insert_eq.
Qed.

Lemma has_effect_mono key (Phi Psi : Effect -> Prop) {A} (m : M A) :
  (forall e, Phi e -> Psi e) -> has_effect key Phi m -> has_effect key Psi m.
Proof. intros H (e & o & He & Hm). exists e, o. split; [now apply H | exact Hm]. Qed.

Section Effects.

Variable key : string.
Variable Phi : Effect -> Prop.
Hypothesis Phi_none : Phi no_effect.
Hypothesis Phi_then : forall e1 e2, Phi e1 -> Phi e2 -> Phi (then_effect e1 e2).

Lemma has_effect_lift {A} (o : Outcome A) : has_effect key Phi (lift o).
Proof.
  exists no_effect, o. split; [exact Phi_none |].
  intros s. unfold lift. now rewrite apply_no_effect.
Qed.

Lemma has_effect_ret {A} (a : A) : has_effect key Phi (ret a).
Proof. apply (has_effect_lift (Return a)). Qed.

Lemma has_effect_raise {A} (e : exn) : has_effect key Phi (@raise A e).
Proof. apply (has_effect_lift (Raise e)). Qed.

Lemma has_effect_bind {A B} (m : M A) (f : A -> M B) :
  has_effect key Phi m -> (forall a, has_effect key Phi (f a)) ->
  has_effect key Phi (bind m f).
Proof.
  intros (e1 & [a|exc] & H1 & Hm) Hf.
  - destruct (Hf a) as (e2 & o & H2 & Hfa).
    exists (then_effect e1 e2), o. split; [now apply Phi_then |].
    intros s. unfold bind. now rewrite Hm, Hfa, apply_then_effect.
  - exists e1, (Raise exc). split; [exact H1 |].
    intros s. unfold bind. now rewrite Hm.
Qed.

Lemma has_effect_for_each {A} (l : list A) (body : A -> M unit) :
  (forall x, In x l -> has_effect key Phi (body x)) ->
  has_effect key Phi (for_each l body).
Proof.
  induction l as [|x l IH]; intros H; simpl.
  - apply has_effect_ret.
  - apply has_effect_bind; [apply H; now left |].
    intros _. apply IH. intros y Hy. apply H. now right.
Qed.

(** The calls of [add_line] that are known to stay within [Phi], by the
    line, the source and the line number they are given. *)
Variable ok : string -> string -> option nat -> Prop.
Hypothesis Phi_line :
  forall indent line src lineno,
    ok line src lineno ->
    Phi {| eff_lines := [added_line indent line src lineno];
           eff_deps := ∅; eff_scope := None |}.

Lemma has_effect_add_line indent line src lineno :
  ok line src lineno -> has_effect key Phi (add_line indent line src lineno).
Proof.
  intros Hok. eexists _, (Return tt). split; [apply (Phi_line indent), Hok |].
  intros s. rewrite add_line_emit. unfold emit, append_lines, apply_effect. simpl.
  do 2 f_equal. symmetry. apply (right_id_L ∅ (∪)).
Qed.

Lemma has_effect_format_cells indent src first cells :
  (forall line, ok line src None) ->
  has_effect key Phi (format_cells indent src first cells).
Proof.
  intros Hok. revert first. induction cells as [|cell cells IH]; intros first; simpl.
  - apply has_effect_ret.
  - apply has_effect_bind; [| intros _; apply IH].
    destruct first; apply has_effect_add_line, Hok.
Qed.

Lemma has_effect_format_datatable indent src dt :
  (forall line, ok line src None) ->
  has_effect key Phi (format_datatable indent src dt).
Proof.
  intros Hok. unfold format_datatable.
  repeat (apply has_effect_bind; [apply has_effect_add_line, Hok | intros _]).
  apply has_effect_for_each. intros row _. now apply has_effect_format_cells.
Qed.

Lemma has_effect_add_docstring indent src d :
  (forall line, ok line src None) ->
  has_effect key Phi (add_docstring indent src d).
Proof.
  intros Hok. unfold add_docstring.
  repeat (apply has_effect_bind; [apply has_effect_add_line, Hok | intros _]).
  apply has_effect_bind; [| intros _; apply has_effect_add_line, Hok].
  apply has_effect_for_each. intros x _. apply has_effect_add_line, Hok.
Qed.

Lemma has_effect_base_add_content indent more_content :
  (forall x, In x (default [] more_content) ->
             ok (text x) (source x) (Some (offset x))) ->
  has_effect key Phi (base_add_content indent more_content).
Proof.
  intros Hok. unfold base_add_content.
  destruct more_content as [[|ln lines]|]; try apply has_effect_ret.
  apply has_effect_for_each. intros x Hx. apply has_effect_add_line, Hok, Hx.
Qed.

Lemma has_effect_add_content c doc k indent more_content :
  (forall line, ok line (doc_name doc) None) ->
  (forall x, In x (default [] more_content) ->
             ok (text x) (source x) (Some (offset x))) ->
  has_effect key Phi (add_content c doc k indent more_content).
Proof.
  intros Hdoc Hmore. unfold add_content, get_sourcename.
  assert (Hbase := has_effect_base_add_content indent more_content Hmore).
  destruct c; try exact Hbase.
  - apply has_effect_bind; [apply has_effect_lift | intros description].
    apply has_effect_bind; [| intros _; exact Hbase].
    apply has_effect_for_each. intros x _. apply has_effect_add_line, Hdoc.
  - apply has_effect_bind; [apply has_effect_lift | intros docstring].
    apply has_effect_bind.
    { destruct docstring; [now apply has_effect_add_docstring | apply has_effect_ret]. }
    intros _. apply has_effect_bind; [apply has_effect_lift | intros datatable].
    apply has_effect_bind; [| intros _; exact Hbase].
    destruct datatable; [| apply has_effect_ret].
    apply has_effect_bind; [now apply has_effect_format_datatable | intros _].
    apply has_effect_add_line, Hdoc.
  - apply has_effect_bind; [apply has_effect_lift | intros datatable].
    apply has_effect_bind.
    { destruct datatable; [now apply has_effect_format_datatable |].
      repeat (apply has_effect_bind; [apply has_effect_add_line, Hdoc | intros _]).
      apply has_effect_raise. }
    intros _. apply has_effect_bind; [apply has_effect_add_line, Hdoc | intros _].
    exact Hbase.
Qed.

End Effects.

(** ** The effect of [generate] *)

Lemma walk_effect_none doc more_content : walk_effect doc more_content no_effect.
Proof. split; [apply empty_subseteq | constructor]. Qed.

Lemma walk_effect_then doc more_content e1 e2 :
  walk_effect doc more_content e1 -> walk_effect doc more_content e2 ->
  walk_effect doc more_content (then_effect e1 e2).
Proof.
  intros [D1 L1] [D2 L2]. split; simpl.
  - now apply union_least.
  - apply Forall_app. now split.
Qed.

Lemma walk_effect_no_content doc more_content e :
  walk_effect doc None e -> walk_effect doc more_content e.
Proof.
  intros [D L]. split; [exact D |].
  eapply Forall_impl; [exact L |].
  intros l (indent & [Hl|(x & [] & _)]). exists indent. now left.
Qed.

Lemma walk_effect_line doc more_content indent line src lineno :
  walk_call doc more_content line src lineno ->
  walk_effect doc more_content
    {| eff_lines := [added_line indent line src lineno];
       eff_deps := ∅; eff_scope := None |}.
Proof.
  intros H. split; [apply empty_subseteq |]. constructor; [| constructor].
  exists indent. destruct H as [[-> ->]|(x & Hx & -> & -> & ->)].
  - left. now exists line.
  - right. now exists x.
Qed.

Lemma has_effect_after key (Phi : Effect -> Prop) {A} (m m' : M A) e1 :
  (forall e2, Phi e2 -> Phi (then_effect e1 e2)) ->
  (forall s, m s = m' (apply_effect key e1 s)) ->
  has_effect key Phi m' -> has_effect key Phi m.
Proof.
  intros Hthen Hm (e2 & o & H2 & Hm'). exists (then_effect e1 e2), o.
  split; [now apply Hthen |]. intros s. now rewrite Hm, Hm', apply_then_effect.
Qed.

Lemma walk_effect_header E c doc k indent more_content :
  walk_effect doc more_content (header_effect E c doc k indent).
Proof.
  split; [reflexivity |]. simpl.
  constructor; [| constructor; [| constructor]]; exists indent; left.
  - exists (".. " +:+ domain_name E +:+ ":" +:+ get_directive_name c k
            +:+ ":: " +:+ kw_summary k).
    unfold header_line, added_line, plain.
    rewrite strip_truthy by reflexivity. reflexivity.
  - now exists "".
Qed.

(** From [add_content] on, [generate] stays within the effects of the
    walk when the calls on the children do. *)
Lemma content_and_members_effect E gen c doc k indent more_content :
  (forall c' child i,
     has_effect (scope_key E) (walk_effect doc None) (gen c' doc child i None)) ->
  has_effect (scope_key E) (walk_effect doc more_content)
             (content_and_members E gen c doc k indent more_content).
Proof.
  intros Hgen.
  pose proof (walk_effect_none doc more_content) as Hnone.
  pose proof (walk_effect_then doc more_content) as Hthen.
  pose proof (fun i l s n => walk_effect_line doc more_content i l s n) as Hline.
  assert (Hdoc : forall line, walk_call doc more_content line (doc_name doc) None)
    by (intros; now left).
  assert (Hmore : forall x, In x (default [] more_content) ->
            walk_call doc more_content (text x) (source x) (Some (offset x)))
    by (intros x Hx; right; now exists x).
  unfold content_and_members.
  apply (has_effect_bind _ _ Hthen).
  { now apply (has_effect_add_content _ _ Hnone Hthen _ Hline). }
  intros _. apply (has_effect_bind _ _ Hthen).
  { apply (has_effect_add_line _ _ _ Hline), Hdoc. }
  intros _. unfold document_members.
  apply (has_effect_bind _ _ Hthen); [apply (has_effect_lift _ _ Hnone) |].
  intros children. apply (has_effect_for_each _ _ Hnone Hthen).
  intros child _. unfold document_member.
  destruct (documenters E !! _) as [[c'|f]|];
    try apply (has_effect_raise _ _ Hnone).
  eapply has_effect_mono; [apply walk_effect_no_content | apply Hgen].
Qed.

(** On every store [generate_at] has the same effect and the same outcome:
    it appends lines of the walk, records at most the name of the document
    and writes at most the scope key. *)
Lemma generate_at_effect E depth :
  forall c doc k indent more_content,
    has_effect (scope_key E) (walk_effect doc more_content)
               (generate_at E depth c doc k indent more_content).
Proof.
  induction depth as [|depth IH]; intros c doc k indent more_content.
  - apply has_effect_raise, walk_effect_none.
  - simpl.
    apply (has_effect_after _ _ _
             (content_and_members E (generate_at E depth) c doc k indent more_content)
             (header_effect E c doc k indent)).
    + intros e2. apply walk_effect_then, walk_effect_header.
    + intros s. apply generate_body_split.
    + apply content_and_members_effect. intros c' child i. apply IH.
Qed.

(** [generate] on an arbitrary store: the lines, the scope left behind and
    the outcome are the same on every store. *)
Lemma generate_effect_shape E c doc k indent more_content :
  exists body dk o,
    Forall (walk_line doc more_content) body
    /\ forall s,
         generate E c doc k indent more_content s
         = ({| result := result s ++ header_line E c doc k indent :: body;
               record_dependencies := record_dependencies s ∪ {[ doc_name doc ]};
               ref_context := <[ scope_key E := dk ]> (ref_context s);
               log_errors := log_errors s;
               settings_record_dependencies := settings_record_dependencies s |}, o).
Proof.
  destruct (content_and_members_effect E (generate_at E (kw_height k)) c doc k indent
              more_content (fun c' child i => generate_at_effect E _ c' doc child i None))
    as (e & o & [Hdeps Hlines] & Hrun).
  exists (plain "" (doc_name doc) :: eff_lines e),
         (default (documented_keyword E doc k) (eff_scope e)), o.
  split.
  - constructor; [| exact Hlines]. exists indent. left. now exists "".
  - intros s. unfold generate. simpl. rewrite generate_body_split, Hrun.
    unfold apply_effect, after_header. simpl. f_equal. f_equal.
    + now rewrite <- app_assoc.
    + rewrite <- (assoc_L (∪)). f_equal.
      rewrite (comm_L (∪)). now apply subseteq_union_1_L.
    + destruct (eff_scope e); simpl; [apply insert_insert_eq | reflexivity].
Qed.

(** X1: whatever the outcome, [generate] adds the name of the document,
    and nothing else, to the dependencies of the bridge; it leaves the log
    and the dependencies of the document settings alone, and in
    [env.ref_context] it writes the scope key and no other key. *)
Theorem generate_frame
  (E : Env) (c : DocClass) (doc : Document) (k : Keyword) (indent : string)
  (more_content : option (list Line)) (s : St) :
  record_dependencies (exec (generate E c doc k indent more_content) s)
  = record_dependencies s ∪ {[ doc_name doc ]}
  /\ log_errors (exec (generate E c doc k indent more_content) s) = log_errors s
  /\ settings_record_dependencies (exec (generate E c doc k indent more_content) s)
     = settings_record_dependencies s
  /\ (forall key : string,
        key <> scope_key E ->
        ref_context (exec (generate E c doc k indent more_content) s) !! key
        = ref_context s !! key)
  /\ is_Some (ref_context (exec (generate E c doc k indent more_content) s)
              !! scope_key E).
Proof.
  destruct (generate_effect_shape E c doc k indent more_content)
    as (body & dk & o & _ & Hrun).
  unfold exec. rewrite Hrun. simpl.
  repeat split; try reflexivity.
  - intros key Hkey. now apply lookup_insert_ne.
  - rewrite lookup_insert_eq. now exists dk.
Qed.

(** X2: the lines that [generate] appends and the way it ends do not
    depend on the store: on any store the result grows by the lines that
    [generate] gives on an empty one, and the outcome is the same. *)
Theorem generate_store_independent
  (E : Env) (c : DocClass) (doc : Document) (k : Keyword) (indent : string)
  (more_content : option (list Line)) (s : St) :
  result (exec (generate E c doc k indent more_content) s)
  = result s ++ lines_of (generate E c doc k indent more_content)
  /\ outcome (generate E c doc k indent more_content) s
     = outcome (generate E c doc k indent more_content) empty_store.
Proof.
  destruct (generate_effect_shape E c doc k indent more_content)
    as (body & dk & o & _ & Hrun).
  unfold lines_of, exec, outcome. rewrite !Hrun. simpl. split; reflexivity.
Qed.

Lemma has_other_app p a b :
  has_other p (a +:+ b) = has_other p a || has_other p b.
Proof.
  induction a as [|x a IH]; [reflexivity |].
  change (negb (p x) || has_other p (a +:+ b)
          = negb (p x) || has_other p a || has_other p b).
  rewrite IH. apply orb_assoc.
Qed.

Lemma rstrip_by_all p s : has_other p s = false -> Py.rstrip_by p s = "".
Proof.
  induction s as [|c r IH]; [reflexivity |]. simpl. intros H.
  apply orb_false_iff in H as [Hc Hr]. rewrite (IH Hr).
  apply negb_false_iff in Hc. now rewrite Hc.
Qed.

(** A line is blank exactly when all its characters are whitespace. *)
Lemma strip_truthy_iff s :
  Py.truthy (Py.strip s) = has_other Py.isspace s.
Proof.
  destruct (has_other Py.isspace s) eqn:H.
  - now apply strip_truthy.
  - unfold Py.strip, Py.strip_by. now rewrite (rstrip_by_all _ _ H).
Qed.

Lemma added_line_not_whitespace indent line src lineno :
  text (added_line indent line src lineno) = ""
  \/ Py.truthy (Py.strip (text (added_line indent line src lineno))) = true.
Proof.
  unfold added_line. simpl.
  destruct (Py.truthy (Py.strip line)) eqn:H; [right | now left].
  rewrite strip_truthy_iff in *. rewrite has_other_app, H. apply orb_true_r.
Qed.

(** X3: no line that [generate] appends consists of whitespace only: a
    line is the empty string or has a character that is not whitespace. *)
Theorem generated_lines_never_whitespace
  (E : Env) (c : DocClass) (doc : Document) (k : Keyword) (indent : string)
  (more_content : option (list Line)) (s : St) :
  exists lines,
    result (exec (generate E c doc k indent more_content) s) = result s ++ lines
    /\ Forall (fun l => text l = "" \/ Py.truthy (Py.strip (text l)) = true) lines.
Proof.
  destruct (generate_effect_shape E c doc k indent more_content)
    as (body & dk & o & Hbody & Hrun).
  exists (header_line E c doc k indent :: body).
  unfold exec. rewrite Hrun. split; [reflexivity |].
  constructor.
  - right. unfold header_line. simpl. apply strip_truthy.
    rewrite has_other_app. simpl. apply orb_true_r.
  - eapply Forall_impl; [exact Hbody |].
    intros l (i & [(line & ->)|(x & _ & ->)]); apply added_line_not_whitespace.
Qed.

(** X4: every line that [generate] appends is attributed either to the
    document, with offset 0, or to an entry of [more_content], whose source
    and offset it keeps and whose text it carries behind an indent (or as
    the empty string when the entry is blank). *)
Theorem generated_lines_attributed
  (E : Env) (c : DocClass) (doc : Document) (k : Keyword) (indent : string)
  (more_content : option (list Line)) (s : St) :
  exists lines,
    result (exec (generate E c doc k indent more_content) s) = result s ++ lines
    /\ Forall (fun l =>
         (source l = doc_name doc /\ offset l = 0)
         \/ (exists x, In x (default [] more_content)
                       /\ source l = source x /\ offset l = offset x
                       /\ (text l = "" \/ exists i, text l = i +:+ text x)))
         lines.
Proof.
  destruct (generate_effect_shape E c doc k indent more_content)
    as (body & dk & o & Hbody & Hrun).
  exists (header_line E c doc k indent :: body).
  unfold exec. rewrite Hrun. split; [reflexivity |].
  constructor; [left; split; reflexivity |].
  eapply Forall_impl; [exact Hbody |].
  intros l (i & [(line & ->)|(x & Hx & ->)]).
  - left. split; reflexivity.
  - right. exists x. split; [exact Hx |]. split; [reflexivity |].
    split; [reflexivity |]. unfold added_line. simpl.
    destruct (Py.truthy _); [right; now exists i | now left].
Qed.

(** ** The content of each class *)

Lemma add_content_emit doc k indent more_content s :
  add_content (documenter_for (class_of k)) doc k indent more_content s
  = emit (content_block doc k indent more_content) s.
Proof.
  destruct k as [kw sm description ch|kw sm ch|kw sm st|kw sm st ex|kw sm dt|kw sm ds dt];
    unfold add_content, get_sourcename, content_block; simpl;
    try apply base_add_content_emit.
  - unfold bind at 1, lift at 1.
    rewrite (bind_of_emit _ _
      (concat (map (fun line => [added_line indent (Py.lstrip line) (doc_name doc) None])
                   (Py.splitlines description)))).
    2:{ apply for_each_emit. intros x s'. apply add_line_emit. }
    rewrite base_add_content_emit, emit_after. do 2 f_equal.
    induction (Py.splitlines description) as [|x l IH]; simpl; [reflexivity |].
    now rewrite IH.
  - unfold bind at 1, lift at 1.
    rewrite (bind_of_emit _ _ _ _ (format_datatable_emit _ _ _ _)).
    rewrite (bind_of_emit _ _ [plain "" (doc_name doc)]) by apply add_line_blank.
    rewrite base_add_content_emit, !emit_after. reflexivity.
  - unfold bind at 1, lift at 1.
    rewrite (bind_of_emit _ _ (docstring_block indent (doc_name doc) ds)).
    2:{ destruct ds; [apply add_docstring_emit | apply ret_as_emit]. }
    unfold bind at 1, lift at 1.
    rewrite (bind_of_emit _ _ (datatable_block indent (doc_name doc) dt)).
    2:{ destruct dt as [t|]; [| apply ret_as_emit].
        rewrite (bind_of_emit _ _ _ _ (format_datatable_emit _ _ _ _)).
        rewrite add_line_blank. apply emit_after. }
    rewrite base_add_content_emit, !emit_after, app_assoc. reflexivity.
Qed.

Lemma lstrip_by_first p s c :
  first_char (Py.lstrip_by p s) = Some c -> p c = false.
Proof.
  induction s as [|x r IH]; simpl; [discriminate |].
  destruct (p x) eqn:Hx; [exact IH |]. simpl. intros H. now inversion H; subst.
Qed.

(** X5: the Documenter of a node's class never fails on its content: a
    Feature gives one line per line of its description, with the leading
    whitespace removed, a Step its docstring and table, an Examples node
    its table and a blank line, the other nodes nothing; the lines of
    [more_content] follow.  A description line is therefore empty or has a
    character that is not whitespace right behind the indent. *)
Theorem content_by_class
  (doc : Document) (k : Keyword) (indent : string)
  (more_content : option (list Line)) (s : St) :
  add_content (documenter_for (class_of k)) doc k indent more_content s
  = emit (content_block doc k indent more_content) s
  /\ forall line,
       text (added_line indent (Py.lstrip line) (doc_name doc) None) = ""
       \/ exists c rest,
            text (added_line indent (Py.lstrip line) (doc_name doc) None)
            = indent +:+ String c rest
            /\ Py.isspace c = false.
Proof.
  split; [apply add_content_emit |].
  intros line. unfold added_line. simpl.
  destruct (Py.lstrip line) as [|c rest] eqn:Hl; [now left |].
  destruct (Py.truthy _); [right | now left].
  exists c, rest. split; [reflexivity |].
  apply (lstrip_by_first Py.isspace line). unfold Py.lstrip in Hl. now rewrite Hl.
Qed.

(** ** Walks over a registry that holds every Documenter *)

Lemma get_child_keywords_for k :
  get_child_keywords (documenter_for (class_of k)) k = Return (child_keywords k).
Proof. destruct k; reflexivity. Qed.

Lemma for_each_lines {A} (l : list A) (body : A -> M unit) (L : A -> list Line) :
  (forall x, In x l -> forall s,
     exists s', body x s = (s', Return tt) /\ result s' = result s ++ L x) ->
  forall s,
    exists s', for_each l body s = (s', Return tt)
               /\ result s' = result s ++ concat (map L l).
Proof.
  induction l as [|x l IH]; intros H s; simpl.
  - exists s. split; [reflexivity | now rewrite app_nil_r].
  - destruct (H x (or_introl eq_refl) s) as (s1 & Hx & Hr1).
    destruct (IH (fun y Hy => H y (or_intror Hy)) s1) as (s2 & Hl & Hr2).
    exists s2. unfold bind. rewrite Hx. split; [exact Hl |].
    now rewrite Hr2, Hr1, app_assoc.
Qed.

Lemma generate_at_returns E doc n :
  registry_ok E ->
  forall k indent more_content s,
    kw_height k < n ->
    outcome (generate_at E n (documenter_for (class_of k)) doc k indent more_content) s
    = Return tt.
Proof.
  intros Hreg. induction n as [|n IH]; intros k indent more_content s Hn; [lia |].
  unfold outcome. simpl. rewrite generate_body_split. unfold content_and_members.
  rewrite (bind_of_emit _ _ _ _ (add_content_emit _ _ _ _ _)).
  rewrite (bind_of_emit _ _ [plain "" (doc_name doc)]) by apply add_line_blank.
  unfold document_members. rewrite get_child_keywords_for.
  unfold bind at 1, lift at 1.
  destruct (for_each_lines (child_keywords k)
              (document_member E (generate_at E n) doc (indent +:+ content_indent))
              (fun child => lines_of (generate_at E n (documenter_for (class_of child))
                                        doc child (indent +:+ content_indent) None)))
    with (s := append_lines [plain "" (doc_name doc)]
                 (append_lines (content_block doc k (indent +:+ content_indent)
                                  more_content)
                    (after_header E (documenter_for (class_of k)) doc k indent s)))
    as (s' & Hrun & _); [| now rewrite Hrun].
  intros child Hin s1. unfold document_member. rewrite Hreg.
  assert (Hlt := child_height _ _ _ _ (get_child_keywords_for k) Hin).
  destruct (generate_at_effect E n (documenter_for (class_of child)) doc child
              (indent +:+ content_indent) None) as (e & o & _ & Hrun).
  assert (Ho := IH child (indent +:+ content_indent) None s1 ltac:(lia)).
  unfold outcome in Ho. rewrite Hrun in Ho. simpl in Ho. subst o.
  eexists. split; [apply Hrun |].
  unfold lines_of, exec. rewrite Hrun. reflexivity.
Qed.

Lemma generate_returns_ok E doc k indent more_content s :
  registry_ok E ->
  outcome (generate E (documenter_for (class_of k)) doc k indent more_content) s
  = Return tt.
Proof. intros Hreg. apply generate_at_returns; [exact Hreg | lia]. Qed.

Lemma generate_appends_lines_of E c doc k indent more_content s :
  result (exec (generate E c doc k indent more_content) s)
  = result s ++ lines_of (generate E c doc k indent more_content).
Proof.
  destruct (generate_effect_shape E c doc k indent more_content)
    as (body & dk & o & _ & Hrun).
  unfold lines_of, exec. now rewrite !Hrun.
Qed.

(** X6: when the registry holds, for every keyword class, the Documenter
    written for it, documenting a keyword tree with the Documenter of its
    root never raises, whatever the tree, the indent and the store (the
    functions of [Env] being functions, they return). *)
Theorem generate_returns
  (E : Env) (doc : Document) (k : Keyword) (indent : string)
  (more_content : option (list Line)) (s : St)
  (Hregistry : registry_ok E) :
  outcome (generate E (documenter_for (class_of k)) doc k indent more_content) s
  = Return tt.
Proof.
  unfold generate.
  apply generate_at_returns; [exact Hregistry |].
  apply Nat.lt_succ_diag_r.
Qed.

(** X7: over such a registry the output of a node is its header line, a
    blank line, its content one unit deeper, a blank line, and then the
    outputs of its child keywords, each generated one unit deeper and
    without [more_content], in the order of [get_child_keywords]. *)
Theorem generate_lines_compose
  (E : Env) (doc : Document) (k : Keyword) (indent : string)
  (more_content : option (list Line))
  (Hregistry : registry_ok E) :
  lines_of (generate E (documenter_for (class_of k)) doc k indent more_content)
  = header_line E (documenter_for (class_of k)) doc k indent
    :: plain "" (doc_name doc)
    :: content_block doc k (indent +:+ content_indent) more_content
    ++ plain "" (doc_name doc)
    :: concat (map (fun child =>
                 lines_of (generate E (documenter_for (class_of child)) doc child
                             (indent +:+ content_indent) None))
               (child_keywords k)).
Proof.
  unfold lines_of at 1. unfold exec. rewrite generate_split.
  unfold content_and_members.
  rewrite (bind_of_emit _ _ _ _ (add_content_emit _ _ _ _ _)).
  rewrite (bind_of_emit _ _ [plain "" (doc_name doc)]) by apply add_line_blank.
  unfold document_members. rewrite get_child_keywords_for.
  unfold bind at 1, lift at 1.
  destruct (for_each_lines (child_keywords k)
              (document_member E (generate E) doc (indent +:+ content_indent))
              (fun child => lines_of (generate E (documenter_for (class_of child))
                                        doc child (indent +:+ content_indent) None)))
    with (s := append_lines [plain "" (doc_name doc)]
                 (append_lines (content_block doc k (indent +:+ content_indent)
                                  more_content)
                    (after_header E (documenter_for (class_of k)) doc k indent
                       empty_store)))
    as (s' & Hrun & Hres).
  - intros child Hin s1. unfold document_member. rewrite Hregistry.
    exists (exec (generate E (documenter_for (class_of child)) doc child
                    (indent +:+ content_indent) None) s1).
    split; [| apply generate_appends_lines_of].
    assert (Ho := generate_returns_ok E doc child (indent +:+ content_indent) None s1
                    Hregistry).
    unfold exec, outcome in *.
    destruct (generate E _ doc child _ None s1) as [s2 o]. simpl in *. now subst.
  - rewrite Hrun. simpl. rewrite Hres. simpl. rewrite <- !app_assoc. reflexivity.
Qed.

(** ** Registry errors in [document_members] *)

(** X8: when the children before [child] have been generated and the
    registry has no entry for the objtype of [child], [document_members]
    raises [KeyError]; when the entry is a class that is not a Documenter,
    it raises [SphinxGherkinError].  In both cases the store is the one the
    earlier children left: their lines stay, and no later child is
    generated. *)
Theorem document_members_registry_error
  (E : Env)
  (gen : DocClass -> Document -> Keyword -> string -> option (list Line) -> M unit)
  (c : DocClass) (doc : Document) (k : Keyword) (indent : string) (s : St)
  (before after : list Keyword) (child : Keyword)
  (Hchildren : get_child_keywords c k = Return (before ++ child :: after))
  (Hbefore : outcome (for_each before (document_member E gen doc indent)) s
             = Return tt) :
  (documenters E !! objtype_for_keyword_class E (class_of child) = None ->
   document_members E gen c doc k indent s
   = (exec (for_each before (document_member E gen doc indent)) s,
      Raise (KeyError (objtype_for_keyword_class E (class_of child)))))
  /\ (forall f,
        documenters E !! objtype_for_keyword_class E (class_of child)
        = Some (Foreign f) ->
        document_members E gen c doc k indent s
        = (exec (for_each before (document_member E gen doc indent)) s,
           Raise (SphinxGherkinError (objtype_for_keyword_class E (class_of child))))).
Proof.
  assert (Hsplit : forall o,
    document_member E gen doc indent child
      (exec (for_each before (document_member E gen doc indent)) s)
    = (exec (for_each before (document_member E gen doc indent)) s, Raise o) ->
    document_members E gen c doc k indent s
    = (exec (for_each before (document_member E gen doc indent)) s, Raise o)).
  { intros o Hchild. unfold document_members. rewrite Hchildren.
    unfold bind at 1, lift at 1. rewrite for_each_app.
    unfold bind at 1. unfold exec, outcome in *.
    destruct (for_each before _ s) as [s1 o1]. simpl in *. subst o1.
    simpl. unfold bind at 1. now rewrite Hchild. }
  split.
  - intros Hnone. apply Hsplit. unfold document_member. now rewrite Hnone.
  - intros f Hforeign. apply Hsplit. unfold document_member. now rewrite Hforeign.
Qed.

(** ** [run] after the options *)

Lemma find_candidate_store E sig paths s :
  find_candidate E sig paths s = (s, outcome (find_candidate E sig paths) s).
Proof.
  unfold outcome. induction paths as [|p paths IH]; simpl; [reflexivity |].
  destruct (documents E !! _); [reflexivity | exact IH].
Qed.

(** Resolving the reference does not touch the store. *)
Lemma get_gherkin_definition_store E d s :
  get_gherkin_definition E d s = (s, outcome (get_gherkin_definition E d) s).
Proof.
  assert (Hbase : base_get_gherkin_definition E d s
                  = (s, outcome (base_get_gherkin_definition E d) s))
    by reflexivity.
  unfold get_gherkin_definition, outcome.
  destruct (dir_class d); try exact Hbase.
  unfold try_except. rewrite find_candidate_store.
  destruct (outcome (find_candidate E _ _) s) as [a|e]; [reflexivity |].
  destruct (is_KeyError e); [exact Hbase | reflexivity].
Qed.

(** X9: when the Documenter is registered and the options are valid but
    the reference does not resolve, the exception of the lookup leaves
    [run]: nothing is logged, generated or recorded, the store is as
    before. *)
Theorem run_reference_error
  (E : Env) (d : Directive) (s : St) (cls : RegEntry)
  (options : gmap string OptValue) (e : exn)
  (Hregistered : documenters E !! keyword_to_objtype E (keyword d) = Some cls)
  (Hoptions : assemble_option_dict (dir_options d) (entry_option_spec cls)
              = Return options)
  (Hmissing : outcome (get_gherkin_definition E d) s = Raise e) :
  run E d s = (s, Raise e).
Proof.
  unfold run. destruct (get_source_and_line d) as [lineno source].
  unfold bind at 1. rewrite Hregistered. unfold ret at 1. rewrite Hoptions.
  unfold bind at 1. rewrite get_gherkin_definition_store, Hmissing. reflexivity.
Qed.

(** X10: when a Documenter of this module is registered, the options are
    valid, the reference resolves and the generation returns, [run] returns
    the parsed lines that [generate] gives at the empty indent with the body
    of the directive as [more_content]; these lines begin with the header
    line of the node, so that the "nothing to render" branch is not taken.
    The bridge is a new one, the name of the document, and no other, is
    added to the dependencies of the document settings, and nothing is
    logged. *)
Theorem run_generated
  (E : Env) (d : Directive) (s : St) (c : DocClass)
  (options : gmap string OptValue) (doc : Document) (k : Keyword)
  (Hregistered : documenters E !! keyword_to_objtype E (keyword d)
                 = Some (Gherkin c))
  (Hoptions : assemble_option_dict (dir_options d) (option_spec c) = Return options)
  (Hfound : outcome (get_gherkin_definition E d) s = Return (doc, k))
  (Hreturns : outcome (generate E c doc k "" (Some (dir_content d))) empty_store
              = Return tt) :
  (exists body,
     lines_of (generate E c doc k "" (Some (dir_content d)))
     = header_line E c doc k "" :: body)
  /\ exists dk,
       run E d s
       = ({| result := lines_of (generate E c doc k "" (Some (dir_content d)));
             record_dependencies := {[ doc_name doc ]};
             ref_context := <[ scope_key E := dk ]> (ref_context s);
             log_errors := log_errors s;
             settings_record_dependencies :=
               settings_record_dependencies s ∪ {[ doc_name doc ]} |},
          Return (parse_generated_content E
                    (lines_of (generate E c doc k "" (Some (dir_content d)))))).
Proof.
  destruct (generate_effect_shape E c doc k "" (Some (dir_content d)))
    as (body & dk & o & _ & Hrun).
  unfold outcome in Hreturns. rewrite Hrun in Hreturns. simpl in Hreturns. subst o.
  assert (Hlines : lines_of (generate E c doc k "" (Some (dir_content d)))
                   = header_line E c doc k "" :: body)
    by (unfold lines_of, exec; now rewrite Hrun).
  split; [now exists body |]. exists dk. rewrite Hlines.
  unfold run. destruct (get_source_and_line d) as [lineno source].
  unfold bind at 1. rewrite Hregistered. unfold ret at 1.
  change (entry_option_spec (Gherkin c)) with (option_spec c). rewrite Hoptions.
  unfold bind at 1. rewrite get_gherkin_definition_store, Hfound.
  unfold bind at 1, new_bridge at 1, update at 1.
  unfold bind at 1. rewrite Hrun. simpl.
  unfold bind, gets, record_dependencies_of_bridge, update, ret. simpl.
  unfold set_settings_record_dependencies. simpl.
  now rewrite (left_id_L ∅ (∪)).
Qed.

(** X11: when the generation raises instead, the exception leaves [run],
    nothing is logged and no dependency reaches the document settings. *)
Theorem run_generation_error
  (E : Env) (d : Directive) (s : St) (c : DocClass)
  (options : gmap string OptValue) (doc : Document) (k : Keyword) (e : exn)
  (Hregistered : documenters E !! keyword_to_objtype E (keyword d)
                 = Some (Gherkin c))
  (Hoptions : assemble_option_dict (dir_options d) (option_spec c) = Return options)
  (Hfound : outcome (get_gherkin_definition E d) s = Return (doc, k))
  (Hraises : outcome (generate E c doc k "" (Some (dir_content d))) empty_store
             = Raise e) :
  outcome (run E d) s = Raise e
  /\ log_errors (exec (run E d) s) = log_errors s
  /\ settings_record_dependencies (exec (run E d) s)
     = settings_record_dependencies s.
Proof.
  destruct (generate_effect_shape E c doc k "" (Some (dir_content d)))
    as (body & dk & o & _ & Hrun).
  unfold outcome in Hraises. rewrite Hrun in Hraises. simpl in Hraises. subst o.
  assert (Heq : run E d s
    = ({| result := header_line E c doc k "" :: body;
          record_dependencies := ∅ ∪ {[ doc_name doc ]};
          ref_context := <[ scope_key E := dk ]> (ref_context s);
          log_errors := log_errors s;
          settings_record_dependencies := settings_record_dependencies s |},
       Raise e)).
  { unfold run. destruct (get_source_and_line d) as [lineno source].
    unfold bind at 1. rewrite Hregistered. unfold ret at 1.
    change (entry_option_spec (Gherkin c)) with (option_spec c). rewrite Hoptions.
    unfold bind at 1. rewrite get_gherkin_definition_store, Hfound.
    unfold bind at 1, new_bridge at 1, update at 1.
    unfold bind at 1. rewrite Hrun. reflexivity. }
  unfold exec, outcome. rewrite Heq. repeat split; reflexivity.
Qed.

(** ** The options of the Documenters *)

Lemma flag_converts v r : flag v = Converts r -> r = None /\ no_argument v.
Proof.
  unfold flag, no_argument. destruct v as [a|]; [| intros H; now inversion H].
  destruct (Py.truthy a && Py.truthy (Py.strip a)); intros H; now inversion H.
Qed.

Lemma flag_no_argument v : no_argument v -> flag v = Converts None.
Proof.
  unfold flag, no_argument. destruct v as [a|]; [| reflexivity].
  now intros ->.
Qed.

(** X12: the Documenters of this module accept one option only, [noindex],
    and only without an argument: [assemble_option_dict] returns on their
    [option_spec] exactly for the empty option list and for the single
    option [noindex] with an absent or blank value; it then returns the
    empty dict or the dict that maps [noindex] to [None]. *)
Theorem documenter_options_accepted
  (c : DocClass) (option_list : list (string * OptValue)) :
  ((exists options,
      assemble_option_dict option_list (option_spec c) = Return options)
   <-> option_list = []
       \/ exists v, option_list = [("noindex", v)] /\ no_argument v)
  /\ forall options,
       assemble_option_dict option_list (option_spec c) = Return options ->
       options = ∅ \/ options = {[ "noindex" := None ]}.
Proof.
  assert (Hrun : forall options,
    assemble_option_dict option_list (option_spec c) = Return options ->
    (option_list = [] /\ options = ∅)
    \/ (exists v, option_list = [("noindex", v)] /\ no_argument v
                  /\ options = {[ "noindex" := None ]})).
  { intros options H. unfold assemble_option_dict, option_spec in H.
    destruct option_list as [|[n v] rest]; [left; split; [reflexivity |] |].
    { simpl in H. now inversion H. }
    right. cbn [assemble_option_dict_into] in H.
    destruct (decide (n = "noindex")) as [->|Hn].
    2:{ rewrite lookup_singleton_ne in H by congruence. discriminate H. }
    rewrite lookup_singleton_eq, lookup_empty in H.
    destruct (flag v) as [r|detail|detail] eqn:Hflag; try discriminate H.
    apply flag_converts in Hflag as [-> Hv].
    destruct rest as [|[n' v'] rest]; cbn [assemble_option_dict_into] in H.
    - exists v. split; [reflexivity |]. split; [exact Hv |].
      inversion H. apply insert_empty.
    - exfalso. destruct (decide (n' = "noindex")) as [->|Hn'].
      + rewrite lookup_singleton_eq, lookup_insert_eq in H. discriminate H.
      + rewrite lookup_singleton_ne in H by congruence. discriminate H. }
  split; [split |].
  - intros (options & H).
    destruct (Hrun options H) as [[-> _]|(v & -> & Hv & _)];
      [now left | right; now exists v].
  - intros [->|(v & -> & Hv)].
    + now exists ∅.
    + exists {[ "noindex" := None ]}.
      unfold assemble_option_dict, option_spec. cbn [assemble_option_dict_into].
      rewrite lookup_singleton_eq, lookup_empty, (flag_no_argument v Hv).
      now rewrite insert_empty.
  - intros options H.
    destruct (Hrun options H) as [[_ ->]|(v & _ & _ & ->)]; [now left | now right].
Qed.

(** ** The keyword label of a directive *)

Lemma drop_app n a b :
  Py.drop n (a +:+ b) = Py.drop n a +:+ Py.drop (n - String.length a) b.
Proof.
  revert n. induction a as [|x a IH]; intros n.
  - rewrite Nat.sub_0_r. destruct n; [reflexivity |]. simpl.
    now destruct (Py.drop (S n) b).
  - destruct n as [|n]; [reflexivity |]. apply IH.
Qed.

Lemma drop_all n a : String.length a <= n -> Py.drop n a = "".
Proof.
  revert n. induction a as [|x a IH]; intros n H.
  - now destruct n.
  - destruct n as [|n]; simpl in *; [lia |]. apply IH. lia.
Qed.

Lemma contains_app c a b :
  Py.contains c (a +:+ b) = Py.contains c a || Py.contains c b.
Proof.
  induction a as [|x a IH]; [reflexivity |].
  change (Ascii.eqb c x || Py.contains c (a +:+ b)
          = Ascii.eqb c x || Py.contains c a || Py.contains c b).
  rewrite IH. apply orb_assoc.
Qed.

Lemma contains_drop c n a : Py.contains c a = false -> Py.contains c (Py.drop n a) = false.
Proof.
  revert n. induction a as [|x a IH]; intros n H.
  - now destruct n.
  - destruct n as [|n]; [exact H |]. simpl in *.
    apply orb_false_iff in H as [_ H]. now apply IH.
Qed.

Lemma after_first_app c a b :
  Py.contains c a = false -> Py.after_first c (a +:+ String c b) = b.
Proof.
  induction a as [|x a IH]; intros H.
  - simpl. now rewrite Ascii.eqb_refl.
  - simpl in H. apply orb_false_iff in H as [Hx H].
    change (Py.after_first c (String x (a +:+ String c b)) = b).
    simpl. rewrite Hx. now apply IH.
Qed.

(** X13: for every directive but the Scenario Outline one, the label is
    the title-cased name without its first four characters; the part of
    the name up to the first colon is removed before that only when this
    colon is not among the first four characters.  So [domain:autoxyz]
    gives [Xyz] for a domain of four characters or more, while a shorter
    domain stays in the name and the label is cut out of the wrong place. *)
Theorem keyword_of_name
  (d : Directive)
  (Hclass : dir_class d <> AutoScenarioOutlineDescription) :
  (Py.contains ":" (dir_name d) = false ->
   keyword d = Py.title (Py.drop 4 (dir_name d)))
  /\ (forall domain base,
        dir_name d = domain +:+ ":" +:+ base ->
        Py.contains ":" domain = false ->
        4 <= String.length domain ->
        keyword d = Py.title (Py.drop 4 base))
  /\ (forall domain base,
        dir_name d = domain +:+ ":" +:+ base ->
        Py.contains ":" base = false ->
        String.length domain < 4 ->
        keyword d = Py.title (Py.drop (3 - String.length domain) base)).
Proof.
  assert (Hkw : keyword d
    = Py.title (Py.drop 4
        (if Py.contains ":" (Py.drop 4 (dir_name d))
         then Py.after_first ":" (dir_name d) else dir_name d))).
  { unfold keyword. destruct (dir_class d); try reflexivity. now contradiction Hclass. }
  split; [| split].
  - intros Hno. rewrite Hkw, (contains_drop _ 4 _ Hno). reflexivity.
  - intros domain base Hname Hdomain Hlen. rewrite Hkw, Hname.
    rewrite drop_app, contains_app.
    replace (4 - String.length domain) with 0 by lia.
    assert (Hcolon : Py.contains ":" (Py.drop 0 (":" +:+ base)) = true)
      by reflexivity.
    rewrite Hcolon, orb_true_r.
    change (domain +:+ ":" +:+ base) with (domain +:+ String ":" base).
    now rewrite after_first_app.
  - intros domain base Hname Hbase Hlen. rewrite Hkw, Hname.
    assert (Hdrop : Py.drop 4 (domain +:+ ":" +:+ base)
                    = Py.drop (3 - String.length domain) base).
    { rewrite drop_app, (drop_all 4 domain) by lia.
      replace (4 - String.length domain) with (S (3 - String.length domain)) by lia.
      reflexivity. }
    rewrite Hdrop, (contains_drop _ _ _ Hbase). exact (f_equal Py.title Hdrop).
Qed.

(** ** The directive name of a Step *)

Lemma lower_char_not_upper c : Py.isupper (Py.lower_char c) = false.
Proof.
  destruct c as [b0 b1 b2 b3 b4 b5 b6 b7];
    destruct b0, b1, b2, b3, b4, b5, b6, b7; reflexivity.
Qed.

Lemma lower_char_colon c : Py.is_colon (Py.lower_char c) = Py.is_colon c.
Proof.
  destruct c as [b0 b1 b2 b3 b4 b5 b6 b7];
    destruct b0, b1, b2, b3, b4, b5, b6, b7; reflexivity.
Qed.

Lemma lower_all_not_upper s :
  all_chars (fun c => negb (Py.isupper c)) (Py.lower s) = true.
Proof.
  induction s as [|c r IH]; [reflexivity |]. simpl.
  now rewrite lower_char_not_upper, IH.
Qed.

Lemma first_char_lower s :
  first_char (Py.lower s) = option_map Py.lower_char (first_char s).
Proof. now destruct s. Qed.

Lemma last_char_lower s :
  last_char (Py.lower s) = option_map Py.lower_char (last_char s).
Proof.
  induction s as [|c r IH]; [reflexivity |].
  destruct r as [|c' r']; [reflexivity |]. exact IH.
Qed.

Lemma rstrip_by_last p s c :
  last_char (Py.rstrip_by p s) = Some c -> p c = false.
Proof.
  induction s as [|x r IH]; simpl; [discriminate |].
  destruct (Py.rstrip_by p r) as [|a r'] eqn:Hr.
  - destruct (p x) eqn:Hx; simpl; [discriminate |].
    intros H. now inversion H; subst.
  - exact IH.
Qed.

Lemma lstrip_by_last p s c :
  last_char (Py.lstrip_by p s) = Some c -> last_char s = Some c.
Proof.
  induction s as [|x r IH]; simpl; [discriminate |].
  destruct (p x); [| trivial].
  intros H. specialize (IH H). destruct r; [discriminate IH | exact IH].
Qed.

Lemma strip_by_ends p s :
  (forall c, first_char (Py.strip_by p s) = Some c -> p c = false)
  /\ (forall c, last_char (Py.strip_by p s) = Some c -> p c = false).
Proof.
  unfold Py.strip_by. split; intros c H.
  - now apply (lstrip_by_first p (Py.rstrip_by p s)).
  - apply (rstrip_by_last p s). now apply (lstrip_by_last p).
Qed.

(** X14: the directive name of a Step has no upper-case letter and
    neither begins nor ends with a colon. *)
Theorem step_directive_name_shape (k : Keyword) :
  all_chars (fun c => negb (Py.isupper c)) (get_directive_name StepDocumenter k) = true
  /\ (forall c, first_char (get_directive_name StepDocumenter k) = Some c ->
                Py.is_colon c = false)
  /\ (forall c, last_char (get_directive_name StepDocumenter k) = Some c ->
                Py.is_colon c = false).
Proof.
  unfold get_directive_name, Py.strip_colon.
  destruct (strip_by_ends Py.is_colon (Py.strip (kw_keyword k))) as [Hfirst Hlast].
  split; [apply lower_all_not_upper |]. split; intros c H.
  - rewrite first_char_lower in H.
    destruct (first_char _) as [x|] eqn:Hx; [| discriminate H].
    simpl in H. inversion H; subst. rewrite lower_char_colon. now apply Hfirst.
  - rewrite last_char_lower in H.
    destruct (last_char _) as [x|] eqn:Hx; [| discriminate H].
    simpl in H. inversion H; subst. rewrite lower_char_colon. now apply Hlast.
Qed.

(** ** Further frame and size properties *)

(** X15: resolving the reference of a directive reads the document store
    and the configuration only: whether it returns or raises, the store is
    the one it started from. *)
Theorem reference_resolution_keeps_store (E : Env) (d : Directive) (s : St) :
  exec (get_gherkin_definition E d) s = s.
Proof. unfold exec. now rewrite get_gherkin_definition_store. Qed.

(** X16: an exception that leaves [generate] is an [AttributeError] (the
    node lacks an attribute that the Documenter reads), a [KeyError] (no
    registry entry for the objtype of a child) or a [SphinxGherkinError]
    (the entry is not a Documenter); the depth bound of the embedding is
    never the cause (the functions of [Env] being functions, they
    return). *)
Theorem generate_exceptions
  (E : Env) (c : DocClass) (doc : Document) (k : Keyword) (indent : string)
  (more_content : option (list Line)) (s : St) (e : exn) :
  outcome (generate E c doc k indent more_content) s = Raise e ->
  (exists a, e = AttributeError a) \/ (exists o, e = KeyError o)
  \/ (exists o, e = SphinxGherkinError o).
Proof.
  intros H. apply generate_raises_only in H.
  destruct e; simpl in H; try contradiction; eauto.
Qed.

(** X17: [format_datatable] appends one line per cell after the marker
    and the blank line: a row without cells leaves no line at all. *)
Theorem format_datatable_line_count (indent src : string) (dt : DataTable) (s : St) :
  length (result (exec (format_datatable indent src dt) s))
  = length (result s) + 2 + length (concat (values dt)).
Proof.
  unfold exec. rewrite format_datatable_emit. simpl.
  rewrite length_app. unfold datatable_lines. simpl.
  assert (Hrows : forall rows,
    length (concat (map (row_lines (indent +:+ content_indent) src) rows))
    = length (concat rows)).
  { induction rows as [|row rows IH]; [reflexivity |]. simpl.
    rewrite !length_app, IH. f_equal.
    destruct row; simpl; [reflexivity | now rewrite length_map]. }
  rewrite Hrows. lia.
Qed.

(** ** The further properties on the sample build *)

Lemma demo_registry_ok : registry_ok Demo.world.
Proof. intros cls. destruct cls; vm_compute; reflexivity. Defined.

Lemma generate_returns_witness :
  registry_ok Demo.world
  /\ outcome (generate Demo.world FeatureDocumenter Demo.login Demo.feature "" None)
       Demo.store
     = Return tt.
Proof.
  split; [exact demo_registry_ok |].
  exact (generate_returns Demo.world Demo.login Demo.feature "" None Demo.store
           demo_registry_ok).
Defined.

Lemma generate_lines_compose_witness :
  registry_ok Demo.world
  /\ lines_of (generate Demo.world ScenarioDocumenter Demo.login Demo.scenario "" None)
     = header_line Demo.world ScenarioDocumenter Demo.login Demo.scenario ""
       :: plain "" "/docs/features/login.feature"
       :: plain "" "/docs/features/login.feature"
       :: lines_of (generate Demo.world StepDocumenter Demo.login Demo.given_step
                      content_indent None)
       ++ lines_of (generate Demo.world StepDocumenter Demo.login Demo.when_step
                      content_indent None)
       ++ lines_of (generate Demo.world ExamplesDocumenter Demo.login Demo.examples
                      content_indent None).
Proof.
  split; [exact demo_registry_ok |].
  refine (eq_trans (generate_lines_compose Demo.world Demo.login Demo.scenario "" None
                      demo_registry_ok) _).
  vm_compute. reflexivity.
Defined.

Lemma document_members_registry_error_witness :
  get_child_keywords ScenarioDocumenter Demo.scenario
  = Return ([] ++ Demo.given_step :: [Demo.when_step; Demo.examples])
  /\ outcome (for_each [] (document_member Demo.world_without_step
                             (generate Demo.world_without_step) Demo.login
                             content_indent)) Demo.store
     = Return tt
  /\ documenters Demo.world_without_step
       !! objtype_for_keyword_class Demo.world_without_step (class_of Demo.given_step)
     = None
  /\ document_members Demo.world_without_step (generate Demo.world_without_step)
       ScenarioDocumenter Demo.login Demo.scenario content_indent Demo.store
     = (Demo.store, Raise (KeyError "step")).
Proof.
  assert (Hnone : documenters Demo.world_without_step
            !! objtype_for_keyword_class Demo.world_without_step
                 (class_of Demo.given_step) = None) by (vm_compute; reflexivity).
  split; [reflexivity |]. split; [reflexivity |]. split; [exact Hnone |].
  exact (proj1 (document_members_registry_error Demo.world_without_step
                  (generate Demo.world_without_step) ScenarioDocumenter Demo.login
                  Demo.scenario content_indent Demo.store []
                  [Demo.when_step; Demo.examples] Demo.given_step eq_refl eq_refl)
           Hnone).
Defined.

Lemma run_reference_error_witness :
  documenters Demo.world
    !! keyword_to_objtype Demo.world (keyword (Demo.autofeature "missing.feature" []))
  = Some (Gherkin FeatureDocumenter)
  /\ assemble_option_dict [] (option_spec FeatureDocumenter) = Return ∅
  /\ outcome (get_gherkin_definition Demo.world (Demo.autofeature "missing.feature" []))
       Demo.store
     = Raise (KeyError "missing.feature")
  /\ run Demo.world (Demo.autofeature "missing.feature" []) Demo.store
     = (Demo.store, Raise (KeyError "missing.feature")).
Proof.
  assert (Hreg : documenters Demo.world
            !! keyword_to_objtype Demo.world
                 (keyword (Demo.autofeature "missing.feature" []))
          = Some (Gherkin FeatureDocumenter)) by (vm_compute; reflexivity).
  assert (Hmissing :
    outcome (get_gherkin_definition Demo.world (Demo.autofeature "missing.feature" []))
      Demo.store
    = Raise (KeyError "missing.feature")) by (vm_compute; reflexivity).
  split; [exact Hreg |]. split; [reflexivity |]. split; [exact Hmissing |].
  exact (run_reference_error Demo.world (Demo.autofeature "missing.feature" [])
           Demo.store (Gherkin FeatureDocumenter) ∅ (KeyError "missing.feature")
           Hreg eq_refl Hmissing).
Defined.

Lemma run_generated_witness :
  documenters Demo.world
    !! keyword_to_objtype Demo.world (keyword (Demo.autofeature "login.feature" []))
  = Some (Gherkin FeatureDocumenter)
  /\ assemble_option_dict [] (option_spec FeatureDocumenter) = Return ∅
  /\ outcome (get_gherkin_definition Demo.world (Demo.autofeature "login.feature" []))
       Demo.store
     = Return (Demo.login, Demo.feature)
  /\ outcome (generate Demo.world FeatureDocumenter Demo.login Demo.feature ""
                (Some [])) empty_store
     = Return tt
  /\ exists dk,
       run Demo.world (Demo.autofeature "login.feature" []) Demo.store
       = ({| result := lines_of (generate Demo.world FeatureDocumenter Demo.login
                                   Demo.feature "" (Some []));
             record_dependencies := {[ "/docs/features/login.feature" ]};
             ref_context := <[ scope_key Demo.world := dk ]> (ref_context Demo.store);
             log_errors := [];
             settings_record_dependencies :=
               settings_record_dependencies Demo.store
               ∪ {[ "/docs/features/login.feature" ]} |},
          Return (lines_of (generate Demo.world FeatureDocumenter Demo.login
                              Demo.feature "" (Some [])))).
Proof.
  assert (Hreg : documenters Demo.world
            !! keyword_to_objtype Demo.world
                 (keyword (Demo.autofeature "login.feature" []))
          = Some (Gherkin FeatureDocumenter)) by (vm_compute; reflexivity).
  assert (Hfound :
    outcome (get_gherkin_definition Demo.world (Demo.autofeature "login.feature" []))
      Demo.store
    = Return (Demo.login, Demo.feature)) by (vm_compute; reflexivity).
  assert (Hreturns :
    outcome (generate Demo.world FeatureDocumenter Demo.login Demo.feature ""
               (Some [])) empty_store
    = Return tt) by (vm_compute; reflexivity).
  split; [exact Hreg |]. split; [reflexivity |]. split; [exact Hfound |].
  split; [exact Hreturns |].
  exact (proj2 (run_generated Demo.world (Demo.autofeature "login.feature" [])
                  Demo.store FeatureDocumenter ∅ Demo.login Demo.feature
                  Hreg eq_refl Hfound Hreturns)).
Defined.

Lemma run_generation_error_witness :
  documenters Demo.world_without_step
    !! keyword_to_objtype Demo.world_without_step
         (keyword (Demo.autofeature "login.feature" []))
  = Some (Gherkin FeatureDocumenter)
  /\ assemble_option_dict [] (option_spec FeatureDocumenter) = Return ∅
  /\ outcome (get_gherkin_definition Demo.world_without_step
                (Demo.autofeature "login.feature" [])) Demo.store
     = Return (Demo.login, Demo.feature)
  /\ outcome (generate Demo.world_without_step FeatureDocumenter Demo.login
                Demo.feature "" (Some [])) empty_store
     = Raise (KeyError "step")
  /\ outcome (run Demo.world_without_step (Demo.autofeature "login.feature" []))
       Demo.store
     = Raise (KeyError "step")
  /\ settings_record_dependencies
       (exec (run Demo.world_without_step (Demo.autofeature "login.feature" []))
             Demo.store)
     = settings_record_dependencies Demo.store.
Proof.
  assert (Hreg : documenters Demo.world_without_step
            !! keyword_to_objtype Demo.world_without_step
                 (keyword (Demo.autofeature "login.feature" []))
          = Some (Gherkin FeatureDocumenter)) by (vm_compute; reflexivity).
  assert (Hfound :
    outcome (get_gherkin_definition Demo.world_without_step
               (Demo.autofeature "login.feature" [])) Demo.store
    = Return (Demo.login, Demo.feature)) by (vm_compute; reflexivity).
  assert (Hraises :
    outcome (generate Demo.world_without_step FeatureDocumenter Demo.login
               Demo.feature "" (Some [])) empty_store
    = Raise (KeyError "step")) by (vm_compute; reflexivity).
  split; [exact Hreg |]. split; [reflexivity |]. split; [exact Hfound |].
  split; [exact Hraises |].
  destruct (run_generation_error Demo.world_without_step
              (Demo.autofeature "login.feature" []) Demo.store FeatureDocumenter ∅
              Demo.login Demo.feature (KeyError "step") Hreg eq_refl Hfound Hraises)
    as (Hout & _ & Hdeps).
  split; [exact Hout | exact Hdeps].
Defined.

Lemma keyword_of_name_witness :
  dir_class (Demo.directive AutoScenarioDescription "gherkin:autoscenario" "Sign in" [])
  <> AutoScenarioOutlineDescription
  /\ keyword (Demo.directive AutoScenarioDescription "gherkin:autoscenario" "Sign in" [])
     = "Scenario"
  /\ dir_class (Demo.directive AutoStepDescription "js:autostep" "x" [])
     <> AutoScenarioOutlineDescription
  /\ keyword (Demo.directive AutoStepDescription "js:autostep" "x" []) = "Utostep".
Proof.
  assert (H1 : dir_class (Demo.directive AutoScenarioDescription
                            "gherkin:autoscenario" "Sign in" [])
               <> AutoScenarioOutlineDescription) by discriminate.
  assert (H2 : dir_class (Demo.directive AutoStepDescription "js:autostep" "x" [])
               <> AutoScenarioOutlineDescription) by discriminate.
  split; [exact H1 |]. split.
  - exact (proj1 (proj2 (keyword_of_name _ H1)) "gherkin" "autoscenario"
             eq_refl eq_refl ltac:(simpl; lia)).
  - split; [exact H2 |].
    exact (proj2 (proj2 (keyword_of_name _ H2)) "js" "autostep"
             eq_refl eq_refl ltac:(simpl; lia)).
Defined.

Lemma generate_exceptions_witness :
  outcome (generate Demo.world_without_step FeatureDocumenter Demo.login Demo.feature
             "" None) Demo.store
  = Raise (KeyError "step")
  /\ ((exists a, KeyError "step" = AttributeError a)
      \/ (exists o, KeyError "step" = KeyError o)
      \/ (exists o, KeyError "step" = SphinxGherkinError o)).
Proof.
  assert (H : outcome (generate Demo.world_without_step FeatureDocumenter Demo.login
                         Demo.feature "" None) Demo.store
              = Raise (KeyError "step")) by (vm_compute; reflexivity).
  split; [exact H |].
  exact (generate_exceptions Demo.world_without_step FeatureDocumenter Demo.login
           Demo.feature "" None Demo.store (KeyError "step") H).
Defined.
